(** * Order creation and the order status machine of quickdish-backend

    A shallow embedding of [src/api/crud/order.py]: the record store the
    functions query and write, the state-and-error monad their bodies run
    in, [create_order], the status projection, and [update_order_status],
    followed by the properties of these functions. *)

From Stdlib Require Import ZArith List String Lia Bool.
From Stdlib Require Import DecimalString.
Import ListNotations.
Open Scope string_scope.
Open Scope Z_scope.

(** ** Python's [decimal.Decimal] under the default context

    A finite decimal is a signed coefficient and an exponent; its value is
    [coef * 10 ^ dexp].  Addition follows the General Decimal Arithmetic
    rules that Python implements: the operands are aligned on the smaller
    exponent, added exactly, and the exact result is rounded half-even to
    the context precision, 28 significant digits by default.  Special
    values, the sign of zero and the exponent limits (Emax = 999999) are
    left out. *)

Module Dec.

Record Decimal : Type := mk { coef : Z; dexp : Z }.

(** [getcontext().prec] *)
Definition prec : Z := 28.

(** [Decimal(0)] *)
Definition zero : Decimal := mk 0 0.

(** The sum before rounding. *)
Definition add_exact (a b : Decimal) : Decimal :=
  let e := Z.min (dexp a) (dexp b) in
  mk (coef a * 10 ^ (dexp a - e) + coef b * 10 ^ (dexp b - e)) e.

Fixpoint ndigits_fuel (fuel : nat) (n : Z) : Z :=
  match fuel with
  | O => 0
  | S fuel' => if n <? 10 then 1 else 1 + ndigits_fuel fuel' (n / 10)
  end.

(** Number of decimal digits of a non-negative coefficient. *)
Definition ndigits (n : Z) : Z :=
  ndigits_fuel (S (Z.to_nat (Z.log2 n))) n.

(** ROUND_HALF_EVEN of a non-negative coefficient, dropping its [k] last
    digits. *)
Definition round_half_even (n k : Z) : Z :=
  let q := n / 10 ^ k in
  let r := n mod 10 ^ k in
  let half := 5 * 10 ^ (k - 1) in
  if half <? r then q + 1
  else if (r =? half) && Z.odd q then q + 1
  else q.

(** [Decimal._fix]: a coefficient of more than [prec] digits is rounded
    to [prec] digits; a carry into a further digit drops one more. *)
Definition fix_ (d : Decimal) : Decimal :=
  let n := Z.abs (coef d) in
  if n <? 10 ^ prec then d
  else
    let k := ndigits n - prec in
    let q := round_half_even n k in
    if q =? 10 ^ prec
    then mk (Z.sgn (coef d) * (q / 10)) (dexp d + k + 1)
    else mk (Z.sgn (coef d) * q) (dexp d + k).

(** [a + b] *)
Definition add (a b : Decimal) : Decimal := fix_ (add_exact a b).

(** The value of [d] counted in units of [10 ^ (- s)], for a decimal
    with at most [s] fractional digits. *)
Definition units (s : Z) (d : Decimal) : Z := coef d * 10 ^ (dexp d + s).

(** Non-negative, with at most [s] fractional digits. *)
Definition bounded (s : Z) (d : Decimal) : Prop :=
  0 <= coef d /\ - s <= dexp d.

(** Numerical equality, [a == b] in Python. *)
Definition eqv (a b : Decimal) : Prop :=
  let e := Z.min (dexp a) (dexp b) in
  coef a * 10 ^ (dexp a - e) = coef b * 10 ^ (dexp b - e).

End Dec.

Abbreviation Decimal := Dec.Decimal.

(** ** Errors, roles and status flags

    Modelled from the spec: [api.errors], [api.dependencies.id.Role] and
    the enumerations of [api.schemas.order], which are not among the
    sources.  Section 7 gives the four kinds of error, the glossary the
    two roles, section 3 the five statuses. *)

Inductive Error : Type :=
| NotFoundError (msg : string)
| InvalidArgumentError (msg : string)
| UnauthorizedError (msg : string)
| InternalServerError (msg : string).

Inductive Role : Type := CUSTOMER | MERCHANT.

Inductive OrderStatusFlag : Type :=
| ORDERED | PREPARING | READY | SETTLED | CANCELLED.

(** [OrderCancelledBy.CUSTOMER] and [OrderCancelledBy.MERCHANT] *)
Inductive OrderCancelledBy : Type := ByCustomer | ByMerchant.

(** ** Rows of the record store

    Modelled from the spec: the classes of [api.models], which are not
    among the sources.  Section 3 gives the entities; the fields are the
    ones [order.py] reads and writes.  Ids and timestamps are Python
    ints. *)

Record Restaurant : Type := mkRestaurant {
  restaurant_id : Z;
  restaurant_merchant_id : Z
}.

Record Menu : Type := mkMenu {
  menu_id : Z;
  menu_restaurant_id : Z;
  menu_price : Decimal
}.

Record Customization : Type := mkCustomization {
  customization_id : Z;
  customization_menu_id : Z;
  customization_required : bool;
  customization_unique : bool
}.

Record Option_ : Type := mkOption {
  option_id : Z;
  option_customization_id : Z;
  option_extra_price : option Decimal
}.

Record Order : Type := mkOrder {
  order_id : Z;
  order_customer_id : Z;
  order_restaurant_id : Z;
  order_ordered_at : Z;
  order_price_paid : Decimal;
  order_status : OrderStatusFlag
}.

Record OrderItem : Type := mkOrderItem {
  order_item_id : Z;
  order_item_order_id : Z;
  order_item_menu_id : Z;
  order_item_quantity : Z;
  order_item_extra_requests : string
}.

Record OrderOption : Type := mkOrderOption {
  order_option_order_item_id : Z;
  order_option_option_id : Z
}.

Record CancelledOrder : Type := mkCancelledOrder {
  cancelled_order_id : Z;
  cancelled_time : Z;
  cancelled_by : OrderCancelledBy;
  cancelled_reason : string
}.

Record PreparingOrder : Type := mkPreparingOrder {
  preparing_order_id : Z;
  prepared_at : Z
}.

Record ReadyOrder : Type := mkReadyOrder {
  ready_order_id : Z;
  ready_at : Z
}.

Record SettledOrder : Type := mkSettledOrder {
  settled_order_id : Z;
  settled_at : Z
}.

(** ** Request and response schemas

    Modelled from the spec: the classes of [api.schemas.order], which are
    not among the sources; the fields are the ones [order.py] reads and
    writes. *)

Record OrderOptionCreate : Type := mkOrderOptionCreate {
  create_option_id : Z
}.

Record OrderItemCreate : Type := mkOrderItemCreate {
  create_menu_id : Z;
  create_quantity : Z;
  create_extra_requests : string;
  create_options : list OrderOptionCreate
}.

Record OrderCreate : Type := mkOrderCreate {
  create_restaurant_id : Z;
  create_items : list OrderItemCreate
}.

(** [OrderStatusUpdate]: the union of the four update requests. *)
Inductive OrderStatusUpdate : Type :=
| CancelledOrderUpdate (reason : string)
| PreparingOrderUpdate
| ReadyOrderUpdate
| SettledOrderUpdate.

(** [OrderStatus]: the union of the five status payloads. *)
Inductive OrderStatus : Type :=
| OrderedOrderSchema
| CancelledOrderSchema (by_ : OrderCancelledBy) (time : Z) (reason : string)
| PreparingOrderSchema (at_ : Z)
| ReadyOrderSchema (at_ : Z)
| SettledOrderSchema (at_ : Z).

(** ** The session: one list of rows per table, in insertion order *)

Record Session : Type := mkSession {
  restaurants : list Restaurant;
  menus : list Menu;
  customizations : list Customization;
  options : list Option_;
  orders : list Order;
  order_items : list OrderItem;
  order_options : list OrderOption;
  cancelled_orders : list CancelledOrder;
  preparing_orders : list PreparingOrder;
  ready_orders : list ReadyOrder;
  settled_orders : list SettledOrder
}.

Definition set_orders (f : list Order -> list Order) (s : Session) : Session :=
  mkSession (restaurants s) (menus s) (customizations s) (options s)
    (f (orders s)) (order_items s) (order_options s)
    (cancelled_orders s) (preparing_orders s) (ready_orders s)
    (settled_orders s).

Definition set_order_items (f : list OrderItem -> list OrderItem)
    (s : Session) : Session :=
  mkSession (restaurants s) (menus s) (customizations s) (options s)
    (orders s) (f (order_items s)) (order_options s)
    (cancelled_orders s) (preparing_orders s) (ready_orders s)
    (settled_orders s).

Definition set_order_options (f : list OrderOption -> list OrderOption)
    (s : Session) : Session :=
  mkSession (restaurants s) (menus s) (customizations s) (options s)
    (orders s) (order_items s) (f (order_options s))
    (cancelled_orders s) (preparing_orders s) (ready_orders s)
    (settled_orders s).

Definition set_cancelled_orders
    (f : list CancelledOrder -> list CancelledOrder) (s : Session) : Session :=
  mkSession (restaurants s) (menus s) (customizations s) (options s)
    (orders s) (order_items s) (order_options s)
    (f (cancelled_orders s)) (preparing_orders s) (ready_orders s)
    (settled_orders s).

Definition set_preparing_orders
    (f : list PreparingOrder -> list PreparingOrder) (s : Session) : Session :=
  mkSession (restaurants s) (menus s) (customizations s) (options s)
    (orders s) (order_items s) (order_options s)
    (cancelled_orders s) (f (preparing_orders s)) (ready_orders s)
    (settled_orders s).

Definition set_ready_orders (f : list ReadyOrder -> list ReadyOrder)
    (s : Session) : Session :=
  mkSession (restaurants s) (menus s) (customizations s) (options s)
    (orders s) (order_items s) (order_options s)
    (cancelled_orders s) (preparing_orders s) (f (ready_orders s))
    (settled_orders s).

Definition set_settled_orders (f : list SettledOrder -> list SettledOrder)
    (s : Session) : Session :=
  mkSession (restaurants s) (menus s) (customizations s) (options s)
    (orders s) (order_items s) (order_options s)
    (cancelled_orders s) (preparing_orders s) (ready_orders s)
    (f (settled_orders s)).

(** ** The monad of the request handlers

    A handler reads and writes the session and either returns or raises.
    The session is threaded through a raise as well, so that what a failed
    call leaves behind is part of its result. *)

Definition M (A : Type) : Type := Session -> (Error + A) * Session.

Definition ret {A : Type} (a : A) : M A := fun s => (inr a, s).

Definition raise {A : Type} (e : Error) : M A := fun s => (inl e, s).

Definition bind {A B : Type} (m : M A) (k : A -> M B) : M B :=
  fun s =>
    match m s with
    | (inl e, s') => (inl e, s')
    | (inr a, s') => k a s'
    end.

(** [state.session.query(...)]: a read of the session. *)
Definition query {A : Type} (q : Session -> A) : M A :=
  fun s => (inr (q s), s).

(** [state.session.add(...)] followed by a flush or commit. *)
Definition write (f : Session -> Session) : M unit :=
  fun s => (inr tt, f s).

Declare Scope handler_scope.
Delimit Scope handler_scope with handler.
Notation "x <- m ;; k" := (bind m (fun x => k))
  (at level 61, m at next level, right associativity) : handler_scope.
Notation "m ;;; k" := (bind m (fun _ => k))
  (at level 61, right associativity) : handler_scope.
Open Scope handler_scope.

(** An [int] inside an f-string. *)
Definition show (z : Z) : string := NilZero.string_of_int (Z.to_int z).

(** The id the store generates for a row added to a table whose rows have
    the ids [ids]: one more than the largest id in use. *)
Definition fresh_id (ids : list Z) : Z := 1 + fold_right Z.max 0 ids.

(** ** Queries *)

(** [query(Menu).filter(Menu.id == menu_id).first()] *)
Definition first_menu (s : Session) (mid : Z) : option Menu :=
  find (fun m => menu_id m =? mid) (menus s).

(** [query(Option, Customization)
      .filter((Option.id == option_id)
              & (Customization.id == Option.customization_id)).first()] *)
Definition first_option_customization (s : Session) (oid : Z)
    : option (Option_ * Customization) :=
  find (fun oc => (option_id (fst oc) =? oid)
                  && (customization_id (snd oc)
                      =? option_customization_id (fst oc)))
       (list_prod (options s) (customizations s)).

(** [query(Customization)
      .filter((Customization.menu_id == menu.id) & (Customization.required))
      .all()] *)
Definition required_menu_customizations (s : Session) (mid : Z)
    : list Customization :=
  filter (fun c => (customization_menu_id c =? mid)
                   && customization_required c)
         (customizations s).

(** [query(Customization)
      .filter((Customization.menu_id == menu.id) & (Customization.unique))
      .all()] *)
Definition unique_customizations (s : Session) (mid : Z)
    : list Customization :=
  filter (fun c => (customization_menu_id c =? mid)
                   && customization_unique c)
         (customizations s).

(** [query(Order).filter(Order.id == order_id).first()] *)
Definition first_order (s : Session) (oid : Z) : option Order :=
  find (fun o => order_id o =? oid) (orders s).

(** [query(Restaurant)
      .filter((Restaurant.merchant_id == user_id)
              & (Restaurant.id == order.restaurant_id)).first()] *)
Definition first_owned_restaurant (s : Session) (user_id rid : Z)
    : option Restaurant :=
  find (fun r => (restaurant_merchant_id r =? user_id)
                 && (restaurant_id r =? rid))
       (restaurants s).

Definition first_cancelled (s : Session) (oid : Z) : option CancelledOrder :=
  find (fun c => cancelled_order_id c =? oid) (cancelled_orders s).

Definition first_preparing (s : Session) (oid : Z) : option PreparingOrder :=
  find (fun p => preparing_order_id p =? oid) (preparing_orders s).

Definition first_ready (s : Session) (oid : Z) : option ReadyOrder :=
  find (fun r => ready_order_id r =? oid) (ready_orders s).

Definition first_settled (s : Session) (oid : Z) : option SettledOrder :=
  find (fun r => settled_order_id r =? oid) (settled_orders s).

(** [x in seen] on a list of ints. *)
Definition mem (x : Z) (seen : list Z) : bool := existsb (Z.eqb x) seen.

(** [seen.count(x)] *)
Definition count (seen : list Z) (x : Z) : Z :=
  Z.of_nat (count_occ Z.eq_dec seen x).

(** Modelled from the spec: [api.crud.restaurant.get_restaurant], which is
    not among the sources; section 6 gives it as
    [get_restaurant(id) -> Restaurant | NotFoundError]. *)
Definition get_restaurant (rid : Z) : M Restaurant :=
  r <- query (fun s => find (fun r => restaurant_id r =? rid)
                            (restaurants s)) ;;
  match r with
  | None => raise (NotFoundError
                     ("restaurant with id " ++ show rid ++ " not found"))
  | Some r => ret r
  end.

(** ** [create_order] *)

(** The loop over [order.options]: each selected option is resolved
    together with its customization, checked against the menu, recorded in
    [seen_customizations] and priced. *)
Fixpoint check_options (menu : Menu) (opts : list OrderOptionCreate)
    (seen_customizations : list Z) (price_paid : Decimal)
    : M (list Z * Decimal) :=
  match opts with
  | [] => ret (seen_customizations, price_paid)
  | option_create :: opts' =>
      let oid := create_option_id option_create in
      result <- query (fun s => first_option_customization s oid) ;;
      match result with
      | None =>
          raise (NotFoundError
                   ("the option with id " ++ show oid ++ " not found"))
      | Some (option, customization) =>
          if negb (customization_menu_id customization =? menu_id menu)
          then raise (InvalidArgumentError
                        ("the option with id " ++ show oid
                         ++ " is not in menu with id "
                         ++ show (menu_id menu)))
          else
            let seen' :=
              (seen_customizations ++ [customization_id customization])%list in
            let price' :=
              match option_extra_price option with
              | Some extra => Dec.add price_paid extra
              | None => price_paid
              end in
            check_options menu opts' seen' price'
      end
  end.

Definition required_message (mid cid : Z) : string :=
  "menu with id " ++ show mid ++ " requires customization with id "
  ++ show cid.

Definition unique_message (mid cid : Z) : string :=
  "menu with id " ++ show mid ++ " requires customization with id "
  ++ show cid ++ " to be unique".

(** The loop over [required_menu_customizations]. *)
Fixpoint check_required (menu : Menu) (required : list Customization)
    (seen_customizations : list Z) : M unit :=
  match required with
  | [] => ret tt
  | required_customization :: required' =>
      if negb (mem (customization_id required_customization)
                   seen_customizations)
      then raise (InvalidArgumentError
                    (required_message (menu_id menu)
                       (customization_id required_customization)))
      else check_required menu required' seen_customizations
  end.

(** The loop over [unique_customizations]. *)
Fixpoint check_unique (menu : Menu) (uniques : list Customization)
    (seen_customizations : list Z) : M unit :=
  match uniques with
  | [] => ret tt
  | unique_customization :: uniques' =>
      if 1 <? count seen_customizations
                (customization_id unique_customization)
      then raise (InvalidArgumentError
                    (unique_message (menu_id menu)
                       (customization_id unique_customization)))
      else check_unique menu uniques' seen_customizations
  end.

(** One turn of the first loop over [payload.items]. *)
Definition check_item (restaurant : Restaurant) (order : OrderItemCreate)
    (price_paid : Decimal) : M Decimal :=
  menu <- query (fun s => first_menu s (create_menu_id order)) ;;
  match menu with
  | None => raise (NotFoundError "menu with id {order.menu_id} not found")
  | Some menu =>
      if negb (menu_restaurant_id menu =? restaurant_id restaurant)
      then raise (InvalidArgumentError
                    ("menu with id " ++ show (create_menu_id order)
                     ++ " is not in restaurant with id "
                     ++ show (restaurant_id restaurant)))
      else if create_quantity order <? 1
      then raise (InvalidArgumentError
                    ("menu with id " ++ show (create_menu_id order)
                     ++ " must have a quantity of at least 1"))
      else
        let price_paid := Dec.add price_paid (menu_price menu) in
        sp <- check_options menu (create_options order) [] price_paid ;;
        let seen_customizations := fst sp in
        let price_paid := snd sp in
        required <- query (fun s =>
                      required_menu_customizations s (menu_id menu)) ;;
        check_required menu required seen_customizations ;;;
        uniques <- query (fun s => unique_customizations s (menu_id menu)) ;;
        check_unique menu uniques seen_customizations ;;;
        ret price_paid
  end.

(** The first loop over [payload.items]. *)
Fixpoint check_items (restaurant : Restaurant) (items : list OrderItemCreate)
    (price_paid : Decimal) : M Decimal :=
  match items with
  | [] => ret price_paid
  | order :: items' =>
      price_paid' <- check_item restaurant order price_paid ;;
      check_items restaurant items' price_paid'
  end.

(** [session.add(sql_order); flush(); refresh(sql_order)]: the row is
    appended, in the session of the call, under a generated id, which is
    returned; the commits come with the items ([create_order_tx] below
    tells them apart).  The status column holds the flag ORDERED, as
    section 4.1 has it. *)
Definition add_order (customer_id rid ordered_at : Z) (price_paid : Decimal)
    : M Z :=
  fun s =>
    let id := fresh_id (map order_id (orders s)) in
    (inr id,
     set_orders (fun l => (l ++ [mkOrder id customer_id rid ordered_at
                                   price_paid ORDERED])%list) s).

(** [session.add(order_item); commit(); refresh(order_item)] *)
Definition add_order_item (oid : Z) (order : OrderItemCreate) : M Z :=
  fun s =>
    let id := fresh_id (map order_item_id (order_items s)) in
    (inr id,
     set_order_items
       (fun l => (l ++ [mkOrderItem id oid (create_menu_id order)
                          (create_quantity order)
                          (create_extra_requests order)])%list) s).

(** The loop over [order.options] of the second pass. *)
Fixpoint add_order_options (item_id : Z) (opts : list OrderOptionCreate)
    : M unit :=
  match opts with
  | [] => ret tt
  | option :: opts' =>
      write (set_order_options
               (fun l => (l ++ [mkOrderOption item_id
                                  (create_option_id option)])%list)) ;;;
      add_order_options item_id opts'
  end.

(** The second loop over [payload.items]. *)
Fixpoint add_order_items (oid : Z) (items : list OrderItemCreate) : M unit :=
  match items with
  | [] => ret tt
  | order :: items' =>
      item_id <- add_order_item oid order ;;
      add_order_options item_id (create_options order) ;;;
      add_order_items oid items'
  end.

(** [create_order(state, customer_id, payload)]; [now] is the value of
    [int(time.time())] read at the start of the call. *)
Definition create_order (customer_id now : Z) (payload : OrderCreate) : M Z :=
  restaurant <- get_restaurant (create_restaurant_id payload) ;;
  let price_paid := Dec.zero in
  let ordered_at := now in
  price_paid <- check_items restaurant (create_items payload) price_paid ;;
  sql_order_id <- add_order customer_id (restaurant_id restaurant)
                    ordered_at price_paid ;;
  add_order_items sql_order_id (create_items payload) ;;;
  ret sql_order_id.

(** ** The status projection *)

(** [__get_status_no_validation(state, order)] *)
Definition get_status_no_validation (order : Order) : M OrderStatus :=
  match order_status order with
  | ORDERED => ret OrderedOrderSchema
  | CANCELLED =>
      cancelled_query <- query (fun s => first_cancelled s (order_id order)) ;;
      match cancelled_query with
      | None => raise (InternalServerError "can't find the cancelled order")
      | Some c =>
          ret (CancelledOrderSchema (cancelled_by c) (cancelled_time c)
                 (cancelled_reason c))
      end
  | PREPARING =>
      preparing_query <- query (fun s => first_preparing s (order_id order)) ;;
      match preparing_query with
      | None => raise (InternalServerError "can't find the preparing order")
      | Some p => ret (PreparingOrderSchema (prepared_at p))
      end
  | READY =>
      ready_query <- query (fun s => first_ready s (order_id order)) ;;
      match ready_query with
      | None => raise (InternalServerError "can't find the ready order")
      | Some r => ret (ReadyOrderSchema (ready_at r))
      end
  | SETTLED =>
      settled_query <- query (fun s => first_settled s (order_id order)) ;;
      match settled_query with
      | None => raise (InternalServerError "can't find the settled order")
      | Some r => ret (SettledOrderSchema (settled_at r))
      end
  end.

(** [__get_order_with_validation(state, user_id, role, order_id)] *)
Definition get_order_with_validation (user_id : Z) (role : Role) (oid : Z)
    : M Order :=
  order <- query (fun s => first_order s oid) ;;
  match order with
  | None => raise (NotFoundError "order with id {order_id} not found")
  | Some order =>
      match role with
      | CUSTOMER =>
          if negb (order_customer_id order =? user_id)
          then raise (UnauthorizedError "customer does not own the order")
          else ret order
      | MERCHANT =>
          result <- query (fun s =>
                      first_owned_restaurant s user_id
                        (order_restaurant_id order)) ;;
          match result with
          | None => raise (UnauthorizedError "merchant does not own the order")
          | Some _ => ret order
          end
      end
  end.

(** [get_order_status(state, user_id, role, order_id)] *)
Definition get_order_status (user_id : Z) (role : Role) (oid : Z)
    : M OrderStatus :=
  order <- get_order_with_validation user_id role oid ;;
  get_status_no_validation order.

(** ** [update_order_status] *)

Definition with_status (o : Order) (st : OrderStatusFlag) : Order :=
  mkOrder (order_id o) (order_customer_id o) (order_restaurant_id o)
    (order_ordered_at o) (order_price_paid o) st.

(** [order.status = st] on the row that [first_order] loaded: the first
    row of the table with that id. *)
Fixpoint assign_status (oid : Z) (st : OrderStatusFlag) (l : list Order)
    : list Order :=
  match l with
  | [] => []
  | o :: l' =>
      if order_id o =? oid then with_status o st :: l'
      else o :: assign_status oid st l'
  end.

(** The four successful branches: the satellite row is added, the status
    is assigned, and both are committed together. *)
Definition commit_cancelled (order : Order) (now : Z) (who : OrderCancelledBy)
    (reason : string) : M unit :=
  write (fun s =>
    set_orders (assign_status (order_id order) CANCELLED)
      (set_cancelled_orders
         (fun l => (l ++ [mkCancelledOrder (order_id order) now who
                            reason])%list) s)).

Definition commit_settled (order : Order) (now : Z) : M unit :=
  write (fun s =>
    set_orders (assign_status (order_id order) SETTLED)
      (set_settled_orders
         (fun l => (l ++ [mkSettledOrder (order_id order) now])%list) s)).

Definition commit_preparing (order : Order) (now : Z) : M unit :=
  write (fun s =>
    set_orders (assign_status (order_id order) PREPARING)
      (set_preparing_orders
         (fun l => (l ++ [mkPreparingOrder (order_id order) now])%list) s)).

Definition commit_ready (order : Order) (now : Z) : M unit :=
  write (fun s =>
    set_orders (assign_status (order_id order) READY)
      (set_ready_orders
         (fun l => (l ++ [mkReadyOrder (order_id order) now])%list) s)).

(** The [match role, order.status, status] statement, its cases in the
    order of the source; [now] is [int(time.time())]. *)
Definition transition (role : Role) (order : Order)
    (status : OrderStatusUpdate) (now : Z) : M unit :=
  match role, order_status order, status with
  | CUSTOMER, ORDERED, CancelledOrderUpdate reason =>
      commit_cancelled order now ByCustomer reason
  | CUSTOMER, READY, SettledOrderUpdate =>
      commit_settled order now
  | CUSTOMER, _, CancelledOrderUpdate _ =>
      raise (InvalidArgumentError "order can't be cancelled anymore")
  | CUSTOMER, _, SettledOrderUpdate =>
      raise (InvalidArgumentError "order can only be settled when it's ready")
  | CUSTOMER, _, _ =>
      raise (InvalidArgumentError "only cancellation or settled are allowed")
  | MERCHANT, ORDERED, PreparingOrderUpdate =>
      commit_preparing order now
  | MERCHANT, _, PreparingOrderUpdate =>
      raise (InvalidArgumentError "order can be prepared only once")
  | MERCHANT, PREPARING, ReadyOrderUpdate =>
      commit_ready order now
  | MERCHANT, _, ReadyOrderUpdate =>
      raise (InvalidArgumentError "order can be ready after it's prepared")
  | MERCHANT, (PREPARING | ORDERED), CancelledOrderUpdate reason =>
      commit_cancelled order now ByMerchant reason
  | MERCHANT, _, CancelledOrderUpdate _ =>
      raise (InvalidArgumentError "order can't be cancelled anymore")
  | MERCHANT, _, SettledOrderUpdate =>
      raise (InvalidArgumentError "order can't be settled by merchant")
  end.

(** [update_order_status(state, user_id, role, order_id, status)] *)
Definition update_order_status (user_id : Z) (role : Role) (oid : Z)
    (status : OrderStatusUpdate) (now : Z) : M unit :=
  order <- get_order_with_validation user_id role oid ;;
  transition role order status now.

(** ** Sample data used by the examples below

    One restaurant (id 1, merchant 10) with a Burger menu at 8.00; a
    required Size customization with Large (+1.50); a unique cheese-level
    customization with Extra Cheese (+0.75) and No Cheese (no extra). *)

Module Sample.

Definition burger : Menu := mkMenu 1 1 (Dec.mk 800 (-2)).
Definition size : Customization := mkCustomization 1 1 true false.
Definition cheese : Customization := mkCustomization 2 1 false true.
Definition large : Option_ := mkOption 1 1 (Some (Dec.mk 150 (-2))).
Definition extra_cheese : Option_ := mkOption 2 2 (Some (Dec.mk 75 (-2))).
Definition no_cheese : Option_ := mkOption 3 2 None.

Definition catalogue : Session :=
  mkSession [mkRestaurant 1 10] [burger] [size; cheese]
    [large; extra_cheese; no_cheese] [] [] [] [] [] [] [].

Definition item (menu quantity : Z) (opts : list Z) : OrderItemCreate :=
  mkOrderItemCreate menu quantity "" (map mkOrderOptionCreate opts).

(** 1 x Burger, Large, Extra Cheese. *)
Definition payload : OrderCreate := mkOrderCreate 1 [item 1 1 [1; 2]].

(** The catalogue after customer 7 placed [payload] at time 100. *)
Definition ordered : Session := snd (create_order 7 100 payload catalogue).

(** ... and after the merchant started preparing it at time 200. *)
Definition preparing : Session :=
  snd (update_order_status 10 MERCHANT 1 PreparingOrderUpdate 200 ordered).

(** ... or after the customer cancelled it at time 150 instead. *)
Definition cancelled : Session :=
  snd (update_order_status 7 CUSTOMER 1
         (CancelledOrderUpdate "changed my mind") 150 ordered).

End Sample.

(** A menu whose price fills the 28 digits of the context precision, with
    an option that costs half a unit more. *)

Module Rounding.

Definition catalogue : Session :=
  mkSession [mkRestaurant 1 10]
    [mkMenu 1 1 (Dec.mk 9999999999999999999999999999 0)]
    [mkCustomization 1 1 false false]
    [mkOption 1 1 (Some (Dec.mk 5 (-1)))] [] [] [] [] [] [] [].

Definition payload : OrderCreate :=
  mkOrderCreate 1 [Sample.item 1 1 [1]].

End Rounding.

(** A menu with two required customizations, and one with two unique
    customizations of one option each. *)

Module TwoRequired.

Definition catalogue : Session :=
  mkSession [mkRestaurant 1 10] [mkMenu 1 1 (Dec.mk 800 (-2))]
    [mkCustomization 1 1 true false; mkCustomization 2 1 true false]
    [mkOption 1 1 None; mkOption 2 2 None] [] [] [] [] [] [] [].

(** 1 x the menu, nothing selected. *)
Definition payload : OrderCreate := mkOrderCreate 1 [Sample.item 1 1 []].

End TwoRequired.

Module TwoUnique.

Definition catalogue : Session :=
  mkSession [mkRestaurant 1 10] [mkMenu 1 1 (Dec.mk 800 (-2))]
    [mkCustomization 1 1 false true; mkCustomization 2 1 false true]
    [mkOption 1 1 None; mkOption 2 2 None] [] [] [] [] [] [] [].

(** 1 x the menu, each option selected twice. *)
Definition payload : OrderCreate :=
  mkOrderCreate 1 [Sample.item 1 1 [2; 2; 1; 1]].

End TwoUnique.

(** ** Definitions used to state the properties *)

(** A handler that leaves the session as it found it. *)
Definition read_only {A : Type} (m : M A) : Prop :=
  forall s, snd (m s) = s.

(** The validation half of [create_order]: everything it does before the
    first [session.add]. *)
Definition validation (payload : OrderCreate) : M (Restaurant * Decimal) :=
  restaurant <- get_restaurant (create_restaurant_id payload) ;;
  price_paid <- check_items restaurant (create_items payload) Dec.zero ;;
  ret (restaurant, price_paid).

(** What [create_order] writes once validation has passed. *)
Definition persist (customer_id now : Z) (payload : OrderCreate)
    (restaurant : Restaurant) (price_paid : Decimal) : M Z :=
  sql_order_id <- add_order customer_id (restaurant_id restaurant) now
                    price_paid ;;
  add_order_items sql_order_id (create_items payload) ;;;
  ret sql_order_id.

(** The requests the machine accepts against an order that is ORDERED. *)
Definition accepted_from_ordered (role : Role) (status : OrderStatusUpdate)
    : bool :=
  match role, status with
  | CUSTOMER, CancelledOrderUpdate _ => true
  | MERCHANT, PreparingOrderUpdate => true
  | MERCHANT, CancelledOrderUpdate _ => true
  | _, _ => false
  end.

(** The status an accepted request moves the order to. *)
Definition target_status (status : OrderStatusUpdate) : OrderStatusFlag :=
  match status with
  | CancelledOrderUpdate _ => CANCELLED
  | PreparingOrderUpdate => PREPARING
  | ReadyOrderUpdate => READY
  | SettledOrderUpdate => SETTLED
  end.

(** The actor passes the ownership checks for the order. *)
Definition authorized (s : Session) (user_id : Z) (role : Role) (oid : Z)
    (o : Order) : Prop :=
  get_order_with_validation user_id role oid s = (inr o, s).

(** The status stored for order [oid], if there is such an order. *)
Definition status_of (s : Session) (oid : Z) : option OrderStatusFlag :=
  option_map order_status (first_order s oid).

(** *** Satellite records *)

(** A row of one of the four satellite tables. *)
Inductive Satellite : Type :=
| SatCancelled (c : CancelledOrder)
| SatPreparing (p : PreparingOrder)
| SatReady (r : ReadyOrder)
| SatSettled (x : SettledOrder).

Definition satellite_order_id (sat : Satellite) : Z :=
  match sat with
  | SatCancelled c => cancelled_order_id c
  | SatPreparing p => preparing_order_id p
  | SatReady r => ready_order_id r
  | SatSettled x => settled_order_id x
  end.

(** The status a satellite row belongs to. *)
Definition satellite_status (sat : Satellite) : OrderStatusFlag :=
  match sat with
  | SatCancelled _ => CANCELLED
  | SatPreparing _ => PREPARING
  | SatReady _ => READY
  | SatSettled _ => SETTLED
  end.

(** The status payload that shows the fields of a satellite row. *)
Definition satellite_payload (sat : Satellite) : OrderStatus :=
  match sat with
  | SatCancelled c =>
      CancelledOrderSchema (cancelled_by c) (cancelled_time c)
        (cancelled_reason c)
  | SatPreparing p => PreparingOrderSchema (prepared_at p)
  | SatReady r => ReadyOrderSchema (ready_at r)
  | SatSettled x => SettledOrderSchema (settled_at x)
  end.

(** The session with [sat] appended to its table. *)
Definition add_satellite (sat : Satellite) (s : Session) : Session :=
  match sat with
  | SatCancelled c => set_cancelled_orders (fun l => (l ++ [c])%list) s
  | SatPreparing p => set_preparing_orders (fun l => (l ++ [p])%list) s
  | SatReady r => set_ready_orders (fun l => (l ++ [r])%list) s
  | SatSettled x => set_settled_orders (fun l => (l ++ [x])%list) s
  end.

Definition cancelling_role (role : Role) : OrderCancelledBy :=
  match role with CUSTOMER => ByCustomer | MERCHANT => ByMerchant end.

(** The satellite row an accepted request of [role] at time [now] writes
    for order [oid]. *)
Definition written_satellite (role : Role) (oid : Z)
    (status : OrderStatusUpdate) (now : Z) : Satellite :=
  match status with
  | CancelledOrderUpdate reason =>
      SatCancelled (mkCancelledOrder oid now (cancelling_role role) reason)
  | PreparingOrderUpdate => SatPreparing (mkPreparingOrder oid now)
  | ReadyOrderUpdate => SatReady (mkReadyOrder oid now)
  | SettledOrderUpdate => SatSettled (mkSettledOrder oid now)
  end.

(** The edges of the status machine. *)
Definition edge (from to : OrderStatusFlag) : bool :=
  match from, to with
  | ORDERED, CANCELLED | ORDERED, PREPARING | PREPARING, READY
  | PREPARING, CANCELLED | READY, SETTLED => true
  | _, _ => false
  end.

(** Number of rows of [l] whose order id is [oid]. *)
Definition count_rows {A : Type} (key : A -> Z) (oid : Z) (l : list A) : nat :=
  List.length (filter (fun x => key x =? oid) l).

Definition cancelled_count (s : Session) (oid : Z) : nat :=
  count_rows cancelled_order_id oid (cancelled_orders s).
Definition preparing_count (s : Session) (oid : Z) : nat :=
  count_rows preparing_order_id oid (preparing_orders s).
Definition ready_count (s : Session) (oid : Z) : nat :=
  count_rows ready_order_id oid (ready_orders s).
Definition settled_count (s : Session) (oid : Z) : nat :=
  count_rows settled_order_id oid (settled_orders s).

(** The status/satellite consistency invariant of section 3, for one
    order: none for ORDERED, exactly one of the matching kind otherwise. *)
Definition satellite_matches_status (s : Session) (o : Order) : Prop :=
  match order_status o with
  | ORDERED =>
      cancelled_count s (order_id o) = 0%nat /\
      preparing_count s (order_id o) = 0%nat /\
      ready_count s (order_id o) = 0%nat /\
      settled_count s (order_id o) = 0%nat
  | PREPARING => preparing_count s (order_id o) = 1%nat
  | READY => ready_count s (order_id o) = 1%nat
  | SETTLED => settled_count s (order_id o) = 1%nat
  | CANCELLED => cancelled_count s (order_id o) = 1%nat
  end.

Definition status_satellite_consistent (s : Session) : Prop :=
  forall o, In o (orders s) -> satellite_matches_status s o.

(** The invariant the operations actually maintain: the satellite rows of
    an order are the history of the path that led to its status. *)
Definition history_matches_status (s : Session) (o : Order) : Prop :=
  let c := cancelled_count s (order_id o) in
  let p := preparing_count s (order_id o) in
  let r := ready_count s (order_id o) in
  let x := settled_count s (order_id o) in
  match order_status o with
  | ORDERED => c = 0 /\ p = 0 /\ r = 0 /\ x = 0
  | PREPARING => c = 0 /\ p = 1 /\ r = 0 /\ x = 0
  | READY => c = 0 /\ p = 1 /\ r = 1 /\ x = 0
  | SETTLED => c = 0 /\ p = 1 /\ r = 1 /\ x = 1
  | CANCELLED => c = 1 /\ p <= 1 /\ r = 0 /\ x = 0
  end%nat.

Record well_formed (s : Session) : Prop := {
  wf_ids : NoDup (map order_id (orders s));
  wf_cancelled : forall c, In c (cancelled_orders s) ->
                 In (cancelled_order_id c) (map order_id (orders s));
  wf_preparing : forall p, In p (preparing_orders s) ->
                 In (preparing_order_id p) (map order_id (orders s));
  wf_ready : forall r, In r (ready_orders s) ->
             In (ready_order_id r) (map order_id (orders s));
  wf_settled : forall x, In x (settled_orders s) ->
               In (settled_order_id x) (map order_id (orders s));
  wf_history : forall o, In o (orders s) -> history_matches_status s o
}.

(** [s'] has the order table and the satellite tables of [s]: what an
    operation that deals with other tables leaves behind. *)
Definition same_status_tables (s s' : Session) : Prop :=
  orders s' = orders s /\
  cancelled_orders s' = cancelled_orders s /\
  preparing_orders s' = preparing_orders s /\
  ready_orders s' = ready_orders s /\
  settled_orders s' = settled_orders s.

(** One operation on the store: a call of [create_order] or of
    [update_order_status], returning or raising, or an operation on the
    other tables. *)
Inductive step : Session -> Session -> Prop :=
| step_create s customer_id now payload :
    step s (snd (create_order customer_id now payload s))
| step_update s user_id role oid status now :
    step s (snd (update_order_status user_id role oid status now s))
| step_elsewhere s s' :
    same_status_tables s s' -> step s s'.

(** [s'] comes after [s]. *)
Inductive evolves (s : Session) : Session -> Prop :=
| evolves_refl : evolves s s
| evolves_step s1 s2 : evolves s s1 -> step s1 s2 -> evolves s s2.

(** Sessions reachable from a store without orders. *)
Inductive reachable : Session -> Prop :=
| reachable_initial s :
    orders s = [] -> cancelled_orders s = [] -> preparing_orders s = [] ->
    ready_orders s = [] -> settled_orders s = [] ->
    reachable s
| reachable_step s s' :
    reachable s -> step s s' -> reachable s'.

(** *** The price of a payload *)

(** The extra price of a selected option, if the option resolves and has
    one. *)
Definition option_prices (s : Session) (opts : list OrderOptionCreate)
    : list Decimal :=
  flat_map (fun oc =>
              match first_option_customization s (create_option_id oc) with
              | Some (o, _) =>
                  match option_extra_price o with
                  | Some extra => [extra]
                  | None => []
                  end
              | None => []
              end) opts.

(** The prices a line item contributes: the base price of its menu, then
    the extra price of every selected option that has one. *)
Definition item_prices (s : Session) (order : OrderItemCreate)
    : list Decimal :=
  (match first_menu s (create_menu_id order) with
   | Some menu => [menu_price menu]
   | None => []
   end ++ option_prices s (create_options order))%list.

Definition payload_prices (s : Session) (payload : OrderCreate)
    : list Decimal :=
  flat_map (item_prices s) (create_items payload).

(** Their sum without any rounding, as a decimal ... *)
Definition exact_total (prices : list Decimal) : Decimal :=
  fold_left Dec.add_exact prices Dec.zero.

(** ... and as an integer number of units of [10 ^ (- sc)]. *)
Definition total_units (sc : Z) (prices : list Decimal) : Z :=
  fold_right Z.add 0 (map (Dec.units sc) prices).

(** Their sum as Python accumulates it, every addition rounded to the
    context precision. *)
Definition rounded_total (prices : list Decimal) : Decimal :=
  fold_left Dec.add prices Dec.zero.

(** The customization ids the selected options resolve to, in order. *)
Definition resolved_customizations (s : Session)
    (opts : list OrderOptionCreate) : list Z :=
  flat_map (fun oc =>
              match first_option_customization s (create_option_id oc) with
              | Some (_, c) => [customization_id c]
              | None => []
              end) opts.

(** *** Payloads that differ in quantities only *)

Definition same_item_but_quantity (a b : OrderItemCreate) : Prop :=
  create_menu_id a = create_menu_id b /\
  create_extra_requests a = create_extra_requests b /\
  create_options a = create_options b.

Definition same_but_quantities (p q : OrderCreate) : Prop :=
  create_restaurant_id p = create_restaurant_id q /\
  Forall2 same_item_but_quantity (create_items p) (create_items q).

Definition quantities_valid (p : OrderCreate) : Prop :=
  Forall (fun order => 1 <= create_quantity order) (create_items p).

(** *** The first violation of a payload

    The order in which [create_order] meets violations, written as a
    search: items in payload order; within an item the menu lookup, the
    restaurant of the menu, the quantity, the selected options in order,
    the required customizations, the unique customizations. *)

Fixpoint first_some {A B : Type} (f : A -> option B) (l : list A)
    : option B :=
  match l with
  | [] => None
  | x :: l' =>
      match f x with
      | Some b => Some b
      | None => first_some f l'
      end
  end.

Definition option_violation (s : Session) (menu : Menu)
    (oc : OrderOptionCreate) : option Error :=
  match first_option_customization s (create_option_id oc) with
  | None =>
      Some (NotFoundError
              ("the option with id " ++ show (create_option_id oc)
               ++ " not found"))
  | Some (_, c) =>
      if customization_menu_id c =? menu_id menu then None
      else Some (InvalidArgumentError
                   ("the option with id " ++ show (create_option_id oc)
                    ++ " is not in menu with id " ++ show (menu_id menu)))
  end.

(** The first required customization of the menu, in table order, that
    none of the selected options resolves to. *)
Definition missing_required (s : Session) (menu : Menu)
    (opts : list OrderOptionCreate) : option Customization :=
  find (fun c => negb (mem (customization_id c)
                         (resolved_customizations s opts)))
       (required_menu_customizations s (menu_id menu)).

(** The first unique customization of the menu, in table order, that more
    than one of the selected options resolves to. *)
Definition duplicated_unique (s : Session) (menu : Menu)
    (opts : list OrderOptionCreate) : option Customization :=
  find (fun c => 1 <? count (resolved_customizations s opts)
                        (customization_id c))
       (unique_customizations s (menu_id menu)).

Definition customization_violation (s : Session) (menu : Menu)
    (opts : list OrderOptionCreate) : option Error :=
  match missing_required s menu opts with
  | Some c =>
      Some (InvalidArgumentError
              (required_message (menu_id menu) (customization_id c)))
  | None =>
      match duplicated_unique s menu opts with
      | Some c =>
          Some (InvalidArgumentError
                  (unique_message (menu_id menu) (customization_id c)))
      | None => None
      end
  end.

Definition item_violation (s : Session) (restaurant : Restaurant)
    (order : OrderItemCreate) : option Error :=
  match first_menu s (create_menu_id order) with
  | None => Some (NotFoundError "menu with id {order.menu_id} not found")
  | Some menu =>
      if negb (menu_restaurant_id menu =? restaurant_id restaurant)
      then Some (InvalidArgumentError
                   ("menu with id " ++ show (create_menu_id order)
                    ++ " is not in restaurant with id "
                    ++ show (restaurant_id restaurant)))
      else if create_quantity order <? 1
      then Some (InvalidArgumentError
                   ("menu with id " ++ show (create_menu_id order)
                    ++ " must have a quantity of at least 1"))
      else
        match first_some (option_violation s menu) (create_options order) with
        | Some e => Some e
        | None => customization_violation s menu (create_options order)
        end
  end.

Definition payload_violation (s : Session) (restaurant : Restaurant)
    (items : list OrderItemCreate) : option Error :=
  first_some (item_violation s restaurant) items.

(** *** Messages that name a customization *)

Fixpoint contains (needle hay : string) : bool :=
  match hay with
  | EmptyString => prefix needle EmptyString
  | String c hay' => prefix needle hay || contains needle hay'
  end.

(** The message speaks of "customization with id [cid]", the id being
    followed by a space or by the end of the message. *)
Definition names_customization (msg : string) (cid : Z) : bool :=
  contains ("customization with id " ++ show cid ++ " ") (msg ++ " ").

(** The selected option [oc] resolves to the customization with id
    [cid]. *)
Definition resolves_to (s : Session) (oc : OrderOptionCreate) (cid : Z)
    : Prop :=
  exists o c,
    first_option_customization s (create_option_id oc) = Some (o, c) /\
    customization_id c = cid.

(** Two of the selected options resolve to the customization [cid]. *)
Definition selects_twice (s : Session) (opts : list OrderOptionCreate)
    (cid : Z) : Prop :=
  exists l1 a l2 b l3,
    opts = (l1 ++ a :: l2 ++ b :: l3)%list /\
    resolves_to s a cid /\ resolves_to s b cid.

(** None of the options of the customization [cid] is selected. *)
Definition selects_none (s : Session) (opts : list OrderOptionCreate)
    (cid : Z) : Prop :=
  forall o, In o (options s) -> option_customization_id o = cid ->
            ~ In (option_id o) (map create_option_id opts).

(** The line item [order] is on the menu [menu], which has the
    customization [c]. *)
Definition item_has_customization (s : Session) (payload : OrderCreate)
    (order : OrderItemCreate) (menu : Menu) (c : Customization) : Prop :=
  In order (create_items payload) /\
  first_menu s (create_menu_id order) = Some menu /\
  In c (customizations s) /\
  customization_menu_id c = menu_id menu.

(** The item passes every check that comes before the customization
    checks, and so does every item before it. *)
Definition reaches_customization_checks (s : Session) (payload : OrderCreate)
    (restaurant : Restaurant) (order : OrderItemCreate) (menu : Menu)
    : Prop :=
  get_restaurant (create_restaurant_id payload) s = (inr restaurant, s) /\
  (exists pre post,
     create_items payload = (pre ++ order :: post)%list /\
     payload_violation s restaurant pre = None) /\
  menu_restaurant_id menu = restaurant_id restaurant /\
  1 <= create_quantity order /\
  first_some (option_violation s menu) (create_options order) = None.

(** *** The claims that do not hold as they stand *)

(** C1 as it stands: the stored price is the exact sum. *)
Definition price_paid_exact_as_stated : Prop :=
  forall customer_id now payload s id s',
    create_order customer_id now payload s = (inr id, s') ->
    exists o,
      orders s' = (orders s ++ [o])%list /\
      Dec.eqv (order_price_paid o) (exact_total (payload_prices s payload)).

(** C6 as it stands: the error names any required customization that is
    left out. *)
Definition missing_required_as_stated : Prop :=
  forall customer_id now payload s order menu c,
    item_has_customization s payload order menu c ->
    customization_required c = true ->
    selects_none s (create_options order) (customization_id c) ->
    exists msg,
      create_order customer_id now payload s
      = (inl (InvalidArgumentError msg), s) /\
      names_customization msg (customization_id c) = true.

(** C7 as it stands: the error names any unique customization that is
    selected twice. *)
Definition duplicate_unique_as_stated : Prop :=
  forall customer_id now payload s order menu c,
    item_has_customization s payload order menu c ->
    customization_unique c = true ->
    selects_twice s (create_options order) (customization_id c) ->
    exists msg,
      create_order customer_id now payload s
      = (inl (InvalidArgumentError msg), s) /\
      names_customization msg (customization_id c) = true.

(** C9 as it stands, in its particular case: a quantity below 1 is
    reported ahead of a menu that does not exist. *)
Definition quantity_before_menu_as_stated : Prop :=
  forall customer_id now payload s restaurant order rest,
    get_restaurant (create_restaurant_id payload) s = (inr restaurant, s) ->
    create_items payload = order :: rest ->
    first_menu s (create_menu_id order) = None ->
    create_quantity order < 1 ->
    create_order customer_id now payload s
    = (inl (InvalidArgumentError
              ("menu with id " ++ show (create_menu_id order)
               ++ " must have a quantity of at least 1")), s).

(** *** Auxiliary notions of the proofs *)


(** The session after an accepted request. *)
Definition fire (sat : Satellite) (s : Session) : Session :=
  set_orders (assign_status (satellite_order_id sat) (satellite_status sat))
    (add_satellite sat s).

(** The checks an accepted line item has passed. *)
Definition item_accepted (s : Session) (restaurant : Restaurant)
    (order : OrderItemCreate) : Prop :=
  exists menu,
    first_menu s (create_menu_id order) = Some menu /\
    menu_restaurant_id menu = restaurant_id restaurant /\
    1 <= create_quantity order /\
    (forall c, In c (required_menu_customizations s (menu_id menu)) ->
       mem (customization_id c)
         (resolved_customizations s (create_options order)) = true) /\
    (forall c, In c (unique_customizations s (menu_id menu)) ->
       count (resolved_customizations s (create_options order))
         (customization_id c) <= 1).

(** ** [get_orders] *)

Definition status_eqb (a b : OrderStatusFlag) : bool :=
  match a, b with
  | ORDERED, ORDERED | PREPARING, PREPARING | READY, READY
  | SETTLED, SETTLED | CANCELLED, CANCELLED => true
  | _, _ => false
  end.

(** [Order.status == status_filter if status_filter is not None else True] *)
Definition status_predicate (status_filter : option OrderStatusFlag)
    (o : Order) : bool :=
  match status_filter with
  | Some st => status_eqb (order_status o) st
  | None => true
  end.

(** [Order.restaurant_id == restaurant_id_filter
      if restaurant_id_filter is not None else True] *)
Definition restaurant_predicate (restaurant_id_filter : option Z)
    (o : Order) : bool :=
  match restaurant_id_filter with
  | Some rid => order_restaurant_id o =? rid
  | None => true
  end.

(** [(Restaurant.merchant_id == user_id)
     & (Order.restaurant_id == Restaurant.id)]: the order joins with a
    restaurant row of the merchant. *)
Definition joins_owned_restaurant (s : Session) (user_id : Z) (o : Order)
    : bool :=
  existsb (fun r => (restaurant_merchant_id r =? user_id)
                    && (order_restaurant_id o =? restaurant_id r))
          (restaurants s).

(** [get_orders(state, user_id, role, restaurant_id_filter, status_filter)].
    The query selects Order entities; for a merchant it joins them with
    the restaurants, and [Query.all()] returns each Order entity of the
    join once. *)
Definition get_orders (user_id : Z) (role : Role)
    (restaurant_id_filter : option Z)
    (status_filter : option OrderStatusFlag) : M (list Order) :=
  match role with
  | CUSTOMER =>
      query (fun s =>
        filter (fun o => (order_customer_id o =? user_id)
                         && status_predicate status_filter o
                         && restaurant_predicate restaurant_id_filter o)
               (orders s))
  | MERCHANT =>
      query (fun s =>
        filter (fun o => joins_owned_restaurant s user_id o
                         && status_predicate status_filter o
                         && restaurant_predicate restaurant_id_filter o)
               (orders s))
  end.

(** ** Further notions used to state properties *)

(** The OrderItem rows the second loop of [create_order] writes for the
    order [oid], the first of them under the id [first]. *)
Fixpoint item_rows (first oid : Z) (items : list OrderItemCreate)
    : list OrderItem :=
  match items with
  | [] => []
  | order :: items' =>
      mkOrderItem first oid (create_menu_id order) (create_quantity order)
        (create_extra_requests order)
      :: item_rows (first + 1) oid items'
  end.

(** The OrderOption rows it writes, item by item. *)
Fixpoint option_rows (first : Z) (items : list OrderItemCreate)
    : list OrderOption :=
  match items with
  | [] => []
  | order :: items' =>
      (map (fun oc => mkOrderOption first (create_option_id oc))
           (create_options order)
       ++ option_rows (first + 1) items')%list
  end.

(** A line item that [create_order] accepts, said without reference to
    the order of the checks. *)
Definition valid_item (s : Session) (restaurant : Restaurant)
    (order : OrderItemCreate) : Prop :=
  exists menu,
    first_menu s (create_menu_id order) = Some menu /\
    menu_restaurant_id menu = restaurant_id restaurant /\
    1 <= create_quantity order /\
    (forall oc, In oc (create_options order) ->
       exists o c,
         first_option_customization s (create_option_id oc) = Some (o, c) /\
         customization_menu_id c = menu_id menu) /\
    (forall c, In c (customizations s) ->
       customization_menu_id c = menu_id menu ->
       customization_required c = true ->
       In (customization_id c)
          (resolved_customizations s (create_options order))) /\
    (forall c, In c (customizations s) ->
       customization_menu_id c = menu_id menu ->
       customization_unique c = true ->
       count (resolved_customizations s (create_options order))
         (customization_id c) <= 1).

(** The rows of the transition table that commit. *)
Definition permitted (role : Role) (current : OrderStatusFlag)
    (status : OrderStatusUpdate) : bool :=
  match role, current, status with
  | CUSTOMER, ORDERED, CancelledOrderUpdate _ => true
  | CUSTOMER, READY, SettledOrderUpdate => true
  | MERCHANT, ORDERED, PreparingOrderUpdate => true
  | MERCHANT, PREPARING, ReadyOrderUpdate => true
  | MERCHANT, ORDERED, CancelledOrderUpdate _ => true
  | MERCHANT, PREPARING, CancelledOrderUpdate _ => true
  | _, _, _ => false
  end.

(** The reason given for a request that is turned down: it depends on the
    role and on the kind of request only. *)
Definition rejection_reason (role : Role) (status : OrderStatusUpdate)
    : string :=
  match role, status with
  | CUSTOMER, CancelledOrderUpdate _ => "order can't be cancelled anymore"
  | CUSTOMER, SettledOrderUpdate =>
      "order can only be settled when it's ready"
  | CUSTOMER, _ => "only cancellation or settled are allowed"
  | MERCHANT, PreparingOrderUpdate => "order can be prepared only once"
  | MERCHANT, ReadyOrderUpdate => "order can be ready after it's prepared"
  | MERCHANT, CancelledOrderUpdate _ => "order can't be cancelled anymore"
  | MERCHANT, SettledOrderUpdate => "order can't be settled by merchant"
  end.

(** Two versions of an order that differ in status at most. *)
Definition same_but_status (o o' : Order) : Prop :=
  order_id o' = order_id o /\
  order_customer_id o' = order_customer_id o /\
  order_restaurant_id o' = order_restaurant_id o /\
  order_ordered_at o' = order_ordered_at o /\
  order_price_paid o' = order_price_paid o.

(** The statuses that can follow a status, itself included: the paths of
    the machine. *)
Definition leads_to (from to : OrderStatusFlag) : bool :=
  match from, to with
  | ORDERED, _ => true
  | PREPARING, (PREPARING | READY | SETTLED | CANCELLED) => true
  | READY, (READY | SETTLED) => true
  | SETTLED, SETTLED => true
  | CANCELLED, CANCELLED => true
  | _, _ => false
  end.

(** [l'] is [l] with rows appended. *)
Definition extends {A : Type} (l l' : list A) : Prop :=
  exists added, l' = (l ++ added)%list.

(** The order ids and the satellite tables of [s'] are those of [s] with
    rows appended. *)
Definition status_tables_extend (s s' : Session) : Prop :=
  extends (map order_id (orders s)) (map order_id (orders s')) /\
  extends (cancelled_orders s) (cancelled_orders s') /\
  extends (preparing_orders s) (preparing_orders s') /\
  extends (ready_orders s) (ready_orders s') /\
  extends (settled_orders s) (settled_orders s').

(** *** What a line item adds to the price

    Counted in units of [10 ^ (- sc)]: the base price of the item's menu
    and the extra price of every selected option that has one, each once;
    the quantity of the item does not appear. *)

Definition option_units (sc : Z) (s : Session) (oc : OrderOptionCreate) : Z :=
  match first_option_customization s (create_option_id oc) with
  | Some (o, _) =>
      match option_extra_price o with
      | Some extra => Dec.units sc extra
      | None => 0
      end
  | None => 0
  end.

Definition item_units (sc : Z) (s : Session) (order : OrderItemCreate) : Z :=
  match first_menu s (create_menu_id order) with
  | Some menu => Dec.units sc (menu_price menu)
  | None => 0
  end
  + fold_right Z.add 0 (map (option_units sc s) (create_options order)).

Definition payload_units (sc : Z) (s : Session) (payload : OrderCreate) : Z :=
  fold_right Z.add 0 (map (item_units sc s) (create_items payload)).

(** ** Flushes and commits

    [create_order] flushes the Order row and commits after every
    OrderItem and every OrderOption row.  A transaction keeps apart what
    the session of the call sees and what has been committed. *)

Record Transaction : Type := mkTransaction {
  view : Session;
  committed : Session
}.

Definition Tx (A : Type) : Type := Transaction -> (Error + A) * Transaction.

Definition ret_tx {A : Type} (a : A) : Tx A := fun t => (inr a, t).

Definition bind_tx {A B : Type} (m : Tx A) (k : A -> Tx B) : Tx B :=
  fun t =>
    match m t with
    | (inl e, t') => (inl e, t')
    | (inr a, t') => k a t'
    end.

(** A handler run in the session of the call: its reads see the session,
    its writes are added and flushed there, and nothing is committed. *)
Definition in_session {A : Type} (m : M A) : Tx A :=
  fun t =>
    let (r, v) := m (view t) in (r, mkTransaction v (committed t)).

(** [state.session.commit()] *)
Definition commit : Tx unit :=
  fun t => (inr tt, mkTransaction (view t) (view t)).

(** The loop over [order.options] of the second pass:
    [session.add(OrderOption(...)); session.commit()]. *)
Fixpoint add_order_options_tx (item_id : Z) (opts : list OrderOptionCreate)
    : Tx unit :=
  match opts with
  | [] => ret_tx tt
  | option :: opts' =>
      bind_tx (in_session
                 (write (set_order_options
                           (fun l => (l ++ [mkOrderOption item_id
                                              (create_option_id option)])%list))))
        (fun _ => bind_tx commit
                    (fun _ => add_order_options_tx item_id opts'))
  end.

(** The second loop over [payload.items]:
    [session.add(order_item); session.commit(); session.refresh(order_item)],
    then the options. *)
Fixpoint add_order_items_tx (oid : Z) (items : list OrderItemCreate)
    : Tx unit :=
  match items with
  | [] => ret_tx tt
  | order :: items' =>
      bind_tx (in_session (add_order_item oid order))
        (fun item_id =>
           bind_tx commit
             (fun _ =>
                bind_tx (add_order_options_tx item_id (create_options order))
                  (fun _ => add_order_items_tx oid items')))
  end.

(** [create_order] with its flushes and commits told apart: the lookups
    and the first loop read the session, the Order row is added, flushed
    and refreshed, and the second loop commits row by row. *)
Definition create_order_tx (customer_id now : Z) (payload : OrderCreate)
    : Tx Z :=
  bind_tx (in_session (get_restaurant (create_restaurant_id payload)))
    (fun restaurant =>
       bind_tx (in_session
                  (check_items restaurant (create_items payload) Dec.zero))
         (fun price_paid =>
            bind_tx (in_session
                       (add_order customer_id (restaurant_id restaurant)
                          now price_paid))
              (fun sql_order_id =>
                 bind_tx (add_order_items_tx sql_order_id
                            (create_items payload))
                   (fun _ => ret_tx sql_order_id)))).

(** ** The model at work

    Decimal addition on the boundary of the precision, and the two
    scenarios of section 8 of the spec. *)

Example add_within_precision :
  Dec.add (Dec.mk 800 (-2)) (Dec.mk 150 (-2)) = Dec.mk 950 (-2).
Proof. reflexivity. Qed.

Example add_aligns_exponents :
  Dec.add (Dec.mk 8 0) (Dec.mk 75 (-2)) = Dec.mk 875 (-2).
Proof. reflexivity. Qed.

Example add_rounds_half_to_even_up :
  Dec.add (Dec.mk 9999999999999999999999999999 0) (Dec.mk 5 (-1))
  = Dec.mk 1000000000000000000000000000 1.
Proof. vm_compute. reflexivity. Qed.

Example add_rounds_half_to_even_down :
  Dec.add (Dec.mk 9999999999999999999999999998 0) (Dec.mk 5 (-1))
  = Dec.mk 9999999999999999999999999998 0.
Proof. vm_compute. reflexivity. Qed.

Example scenario_duplicate_cheese :
  fst (create_order 7 100
         (mkOrderCreate 1 [Sample.item 1 1 [1; 2; 2]]) Sample.catalogue)
  = inl (InvalidArgumentError
           "menu with id 1 requires customization with id 2 to be unique").
Proof. vm_compute. reflexivity. Qed.

Example scenario_cancel_while_preparing :
  update_order_status 7 CUSTOMER 1 (CancelledOrderUpdate "too slow") 300
    Sample.preparing
  = (inl (InvalidArgumentError "order can't be cancelled anymore"),
     Sample.preparing)
  /\ status_of Sample.preparing 1 = Some PREPARING.
Proof. split; vm_compute; reflexivity. Qed.

Example menu_of_another_restaurant :
  create_order 7 100 (mkOrderCreate 2 [Sample.item 1 1 [1]])
    (mkSession [mkRestaurant 1 10; mkRestaurant 2 11] [Sample.burger]
       [Sample.size] [Sample.large] [] [] [] [] [] [] [])
  = (inl (InvalidArgumentError
            "menu with id 1 is not in restaurant with id 2"),
     mkSession [mkRestaurant 1 10; mkRestaurant 2 11] [Sample.burger]
       [Sample.size] [Sample.large] [] [] [] [] [] [] []).
Proof. vm_compute. reflexivity. Qed.

(** ** The monad: elementary facts *)

Lemma bind_inl {A B : Type} (m : M A) (k : A -> M B) s e s' :
  m s = (inl e, s') -> bind m k s = (inl e, s').
Proof. intros H. unfold bind. now rewrite H. Qed.

Lemma bind_inr {A B : Type} (m : M A) (k : A -> M B) s a s' :
  m s = (inr a, s') -> bind m k s = k a s'.
Proof. intros H. unfold bind. now rewrite H. Qed.

Lemma bind_inv {A B : Type} (m : M A) (k : A -> M B) s r s' :
  bind m k s = (r, s') ->
  (exists e, m s = (inl e, s') /\ r = inl e) \/
  (exists a s1, m s = (inr a, s1) /\ k a s1 = (r, s')).
Proof.
  unfold bind. destruct (m s) as [[e | a] s1]; intros H.
  - left. exists e. inversion H; subst. auto.
  - right. exists a, s1. auto.
Qed.

Lemma read_only_ret {A : Type} (a : A) : read_only (ret a).
Proof. intros s. reflexivity. Qed.

Lemma read_only_raise {A : Type} (e : Error) : read_only (@raise A e).
Proof. intros s. reflexivity. Qed.

Lemma read_only_query {A : Type} (q : Session -> A) : read_only (query q).
Proof. intros s. reflexivity. Qed.

Lemma read_only_bind {A B : Type} (m : M A) (k : A -> M B) :
  read_only m -> (forall a, read_only (k a)) -> read_only (bind m k).
Proof.
  intros Hm Hk s. unfold bind. specialize (Hm s).
  destruct (m s) as [[e | a] s1]; simpl in *; subst; auto.
  apply Hk.
Qed.

Lemma read_only_eq {A : Type} (m : M A) s r s' :
  read_only m -> m s = (r, s') -> s' = s.
Proof. intros H E. specialize (H s). rewrite E in H. exact H. Qed.

Create HintDb handlers.

#[local] Hint Resolve read_only_ret read_only_raise read_only_query
  read_only_bind : handlers.

(** ** Validation only reads *)

Lemma read_only_get_restaurant rid : read_only (get_restaurant rid).
Proof.
  unfold get_restaurant. apply read_only_bind; auto with handlers.
  intros [r |]; auto with handlers.
Qed.

Lemma read_only_check_options menu opts :
  forall seen price, read_only (check_options menu opts seen price).
Proof.
  induction opts as [| oc opts IH]; intros seen price; simpl.
  - auto with handlers.
  - apply read_only_bind; auto with handlers.
    intros [[o c] |]; auto with handlers.
    destruct (negb _); auto with handlers.
Qed.

Lemma read_only_check_required menu required seen :
  read_only (check_required menu required seen).
Proof.
  induction required as [| c required IH]; simpl; auto with handlers.
  destruct (negb _); auto with handlers.
Qed.

Lemma read_only_check_unique menu uniques seen :
  read_only (check_unique menu uniques seen).
Proof.
  induction uniques as [| c uniques IH]; simpl; auto with handlers.
  destruct (1 <? _); auto with handlers.
Qed.

#[local] Hint Resolve read_only_get_restaurant read_only_check_options
  read_only_check_required read_only_check_unique : handlers.

Lemma read_only_check_item restaurant order price :
  read_only (check_item restaurant order price).
Proof.
  unfold check_item. apply read_only_bind; auto with handlers.
  intros [menu |]; auto with handlers.
  destruct (negb _); auto with handlers.
  destruct (_ <? 1); auto with handlers.
  repeat (apply read_only_bind; auto with handlers; intros).
Qed.

Lemma read_only_check_items restaurant items :
  forall price, read_only (check_items restaurant items price).
Proof.
  induction items as [| order items IH]; intros price; simpl.
  - auto with handlers.
  - apply read_only_bind; auto. apply read_only_check_item.
Qed.

#[local] Hint Resolve read_only_check_item read_only_check_items : handlers.

Lemma read_only_validation payload : read_only (validation payload).
Proof.
  unfold validation.
  repeat (apply read_only_bind; auto with handlers; intros).
Qed.

(** The write half never raises. *)
Lemma add_order_options_returns item_id opts s :
  exists s', add_order_options item_id opts s = (inr tt, s').
Proof.
  revert s. induction opts as [| o opts IH]; intros s; simpl.
  - eexists. reflexivity.
  - unfold bind, write. apply IH.
Qed.

Lemma add_order_items_returns oid items s :
  exists s', add_order_items oid items s = (inr tt, s').
Proof.
  revert s. induction items as [| it items IH]; intros s; simpl.
  - eexists. reflexivity.
  - unfold bind at 1. unfold add_order_item at 1.
    unfold bind at 1.
    destruct (add_order_options_returns
                (fresh_id (map order_item_id (order_items s)))
                (create_options it)
                (set_order_items
                   (fun l => (l ++ [mkOrderItem
                      (fresh_id (map order_item_id (order_items s))) oid
                      (create_menu_id it) (create_quantity it)
                      (create_extra_requests it)])%list) s)) as [s1 E].
    rewrite E. apply IH.
Qed.

Lemma persist_returns customer_id now payload restaurant price s :
  exists id s', persist customer_id now payload restaurant price s
                = (inr id, s').
Proof.
  unfold persist, bind, add_order.
  match goal with
  | |- context [add_order_items ?i ?l ?s0] =>
      destruct (add_order_items_returns i l s0) as [s1 E]; rewrite E
  end.
  do 2 eexists. reflexivity.
Qed.

(** [create_order] is validation followed by the writes. *)
Lemma create_order_split customer_id now payload s :
  create_order customer_id now payload s =
  match validation payload s with
  | (inl e, s') => (inl e, s')
  | (inr (restaurant, price), s') =>
      persist customer_id now payload restaurant price s'
  end.
Proof.
  unfold create_order, validation, persist, bind, ret.
  destruct (get_restaurant _ s) as [[e | r] s1]; [reflexivity |].
  destruct (check_items r _ Dec.zero s1) as [[e | p] s2]; reflexivity.
Qed.

(** ** All-or-nothing creation *)

Lemma validation_fails_create_order customer_id now payload s e s1 :
  validation payload s = (inl e, s1) ->
  create_order customer_id now payload s = (inl e, s).
Proof.
  intros H. rewrite create_order_split, H.
  now rewrite (read_only_eq _ _ _ _ (read_only_validation payload) H).
Qed.

Lemma create_order_fails_validation customer_id now payload s e s' :
  create_order customer_id now payload s = (inl e, s') ->
  validation payload s = (inl e, s) /\ s' = s.
Proof.
  rewrite create_order_split.
  destruct (validation payload s) as [[e1 | [r price]] s1] eqn:V.
  - intros H. inversion H; subst.
    pose proof (read_only_eq _ _ _ _ (read_only_validation payload) V).
    subst. auto.
  - destruct (persist_returns customer_id now payload r price s1)
      as (id & s2 & E).
    rewrite E. discriminate.
Qed.

(** C2. [create_order] is all-or-nothing.  Whatever the payload, a failure
    of any validation check (the restaurant lookup or any check of any
    item) makes the call raise that error with the session exactly as it
    was, so with no new row in Order, OrderItem or OrderOption; and a call
    that raises has failed in validation, before its first write: every
    write happens after the validation of all items has passed. *)
Theorem create_order_all_or_nothing customer_id now payload s r s' :
  create_order customer_id now payload s = (r, s') ->
  (forall e s1, validation payload s = (inl e, s1) ->
     r = inl e /\ s' = s /\ orders s' = orders s /\
     order_items s' = order_items s /\ order_options s' = order_options s) /\
  (forall e, r = inl e -> validation payload s = (inl e, s) /\ s' = s) /\
  (s' <> s -> exists restaurant price,
     validation payload s = (inr (restaurant, price), s) /\
     persist customer_id now payload restaurant price s = (r, s')).
Proof.
  intros H. split; [| split].
  - intros e s1 V.
    rewrite (validation_fails_create_order _ _ _ _ _ _ V) in H.
    inversion H; subst. auto.
  - intros e ->. now apply create_order_fails_validation in H.
  - intros Hne. rewrite create_order_split in H.
    destruct (validation payload s) as [[e1 | [rest price]] s1] eqn:V;
      pose proof (read_only_eq _ _ _ _ (read_only_validation payload) V).
    + inversion H; subst. contradiction.
    + subst s1. exists rest, price. auto.
Qed.

(** The duplicate cheese selection of the scenario in section 8 is turned
    down and nothing is stored. *)
Lemma create_order_all_or_nothing_witness :
  create_order 7 100
    (mkOrderCreate 1 [Sample.item 1 1 [1; 2; 2]]) Sample.catalogue
  = (inl (InvalidArgumentError
            "menu with id 1 requires customization with id 2 to be unique"),
     Sample.catalogue)
  /\ orders Sample.catalogue = [].
Proof.
  split; [| reflexivity].
  destruct (create_order 7 100
              (mkOrderCreate 1 [Sample.item 1 1 [1; 2; 2]]) Sample.catalogue)
    as [r s'] eqn:E.
  destruct (create_order_all_or_nothing _ _ _ _ _ _ E) as (H1 & _ & _).
  destruct (H1 (InvalidArgumentError
            "menu with id 1 requires customization with id 2 to be unique")
            Sample.catalogue) as (Hr & Hs & _).
  - vm_compute. reflexivity.
  - now rewrite Hr, Hs.
Defined.

(** ** The status machine *)

Lemma read_only_get_order_with_validation user_id role oid :
  read_only (get_order_with_validation user_id role oid).
Proof.
  unfold get_order_with_validation.
  apply read_only_bind; auto with handlers.
  intros [o |]; auto with handlers.
  destruct role.
  - destruct (negb _); auto with handlers.
  - apply read_only_bind; auto with handlers.
    intros [r |]; auto with handlers.
Qed.

Lemma authorized_first_order s user_id role oid o s' :
  get_order_with_validation user_id role oid s = (inr o, s') ->
  first_order s oid = Some o /\ s' = s.
Proof.
  intros H.
  pose proof (read_only_eq _ _ _ _
                (read_only_get_order_with_validation user_id role oid) H).
  subst s'. split; [| reflexivity].
  unfold get_order_with_validation, bind, query in H.
  destruct (first_order s oid) as [o1 |]; [| discriminate].
  destruct role.
  - destruct (negb _); inversion H; reflexivity.
  - destruct (first_owned_restaurant _ _ _); inversion H; reflexivity.
Qed.

Lemma first_order_id s oid o :
  first_order s oid = Some o -> In o (orders s) /\ order_id o = oid.
Proof.
  unfold first_order. intros H. apply find_some in H.
  destruct H as [Hin Heq]. split; [assumption | lia].
Qed.

Lemma find_assign_status oid st l o :
  find (fun o => order_id o =? oid) l = Some o ->
  find (fun o => order_id o =? oid) (assign_status oid st l)
  = Some (with_status o st).
Proof.
  induction l as [| x l IH]; simpl; [discriminate |].
  destruct (order_id x =? oid) eqn:E.
  - intros H. inversion H; subst. simpl. now rewrite E.
  - intros H. simpl. rewrite E. auto.
Qed.

(** A rejected request: the call raises and the session stays as it was. *)
Lemma update_rejected user_id role oid status now s o msg :
  authorized s user_id role oid o ->
  transition role o status now = raise (InvalidArgumentError msg) ->
  update_order_status user_id role oid status now s
  = (inl (InvalidArgumentError msg), s).
Proof.
  unfold authorized, update_order_status. intros A T.
  rewrite (bind_inr _ _ _ _ _ A), T. reflexivity.
Qed.

(** An accepted request: the call returns and the order carries the new
    status. *)
Lemma update_accepted user_id role oid status now s o :
  authorized s user_id role oid o ->
  (exists f, transition role o status now
             = write (fun s => set_orders
                        (assign_status (order_id o) (target_status status))
                        (f s))
             /\ forall s, orders (f s) = orders s) ->
  exists s',
    update_order_status user_id role oid status now s = (inr tt, s') /\
    first_order s' oid = Some (with_status o (target_status status)).
Proof.
  unfold authorized, update_order_status. intros A (f & T & Hf).
  rewrite (bind_inr _ _ _ _ _ A), T. unfold write.
  eexists. split; [reflexivity |].
  apply authorized_first_order in A. destruct A as [F _].
  destruct (first_order_id _ _ _ F) as [_ Hid].
  unfold first_order in *. simpl. rewrite Hf, Hid.
  now apply find_assign_status.
Qed.

(** C3. Against an order that is ORDERED, and for an actor who passes the
    ownership checks, [update_order_status] returns exactly for
    (CUSTOMER, Cancel), (MERCHANT, MarkPreparing) and (MERCHANT, Cancel),
    moving the order to the requested status; every other pair of role and
    request raises [InvalidArgumentError] and leaves the session, hence the
    status ORDERED, as it was. *)
Theorem update_from_ordered user_id role oid status now s o :
  authorized s user_id role oid o ->
  order_status o = ORDERED ->
  (accepted_from_ordered role status = true ->
     exists s',
       update_order_status user_id role oid status now s = (inr tt, s') /\
       status_of s' oid = Some (target_status status)) /\
  (accepted_from_ordered role status = false ->
     exists msg,
       update_order_status user_id role oid status now s
       = (inl (InvalidArgumentError msg), s) /\
       status_of s oid = Some ORDERED).
Proof.
  intros A St. split; intros Acc.
  - destruct (update_accepted user_id role oid status now s o A)
      as (s' & E & F).
    + unfold transition. rewrite St.
      destruct role, status; try discriminate; simpl;
        unfold commit_cancelled, commit_preparing;
        eexists; (split; [reflexivity | reflexivity]).
    + exists s'. split; [assumption |].
      unfold status_of. now rewrite F.
  - assert (exists msg, transition role o status now
                        = raise (InvalidArgumentError msg)) as [msg T].
    { unfold transition. rewrite St.
      destruct role, status; try discriminate; eexists; reflexivity. }
    exists msg. split.
    + now apply update_rejected with (o := o).
    + apply authorized_first_order in A. destruct A as [F _].
      unfold status_of. rewrite F. simpl. now rewrite St.
Qed.

(** The merchant of the sample restaurant marks the fresh order as being
    prepared; the customer may not. *)
Lemma update_from_ordered_witness :
  (exists s',
     update_order_status 10 MERCHANT 1 PreparingOrderUpdate 200 Sample.ordered
     = (inr tt, s') /\ status_of s' 1 = Some PREPARING) /\
  (exists msg,
     update_order_status 7 CUSTOMER 1 PreparingOrderUpdate 200 Sample.ordered
     = (inl (InvalidArgumentError msg), Sample.ordered) /\
     status_of Sample.ordered 1 = Some ORDERED).
Proof.
  split.
  - apply (update_from_ordered 10 MERCHANT 1 PreparingOrderUpdate 200
             Sample.ordered (mkOrder 1 7 1 100 (Dec.mk 1025 (-2)) ORDERED));
      reflexivity.
  - apply (update_from_ordered 7 CUSTOMER 1 PreparingOrderUpdate 200
             Sample.ordered (mkOrder 1 7 1 100 (Dec.mk 1025 (-2)) ORDERED));
      reflexivity.
Defined.

(** ** Counting satellite rows *)

Lemma count_rows_app {A : Type} (key : A -> Z) oid (l : list A) x :
  count_rows key oid (l ++ [x])
  = (count_rows key oid l + (if (key x =? oid)%Z then 1 else 0))%nat.
Proof.
  unfold count_rows. rewrite filter_app, length_app. simpl.
  destruct (key x =? oid); reflexivity.
Qed.

Lemma count_rows_absent {A : Type} (key : A -> Z) oid (l : list A) :
  (forall x, In x l -> key x <> oid) -> count_rows key oid l = 0%nat.
Proof.
  unfold count_rows. induction l as [| a l IH]; intros H; simpl.
  - reflexivity.
  - destruct (key a =? oid) eqn:E.
    + apply Z.eqb_eq in E. exfalso. apply (H a); simpl; auto.
    + apply IH. intros x Hx. apply H. simpl. auto.
Qed.

Lemma count_rows_zero {A : Type} (key : A -> Z) oid (l : list A) :
  count_rows key oid l = 0%nat -> find (fun x => key x =? oid) l = None.
Proof.
  unfold count_rows. induction l as [| a l IH]; simpl; [reflexivity |].
  destruct (key a =? oid); simpl; [discriminate | exact IH].
Qed.

Lemma count_rows_positive {A : Type} (key : A -> Z) oid (l : list A) :
  count_rows key oid l <> 0%nat ->
  exists x, find (fun x => key x =? oid) l = Some x.
Proof.
  unfold count_rows. induction l as [| a l IH]; simpl; [congruence |].
  destruct (key a =? oid); simpl; [eauto | exact IH].
Qed.

Lemma find_app_last {A : Type} (key : A -> Z) oid (l : list A) x :
  count_rows key oid l = 0%nat -> key x = oid ->
  find (fun x => key x =? oid) (l ++ [x]) = Some x.
Proof.
  intros H K. apply count_rows_zero in H.
  induction l as [| a l IH]; simpl in *.
  - rewrite K, Z.eqb_refl. reflexivity.
  - destruct (key a =? oid); [discriminate | auto].
Qed.

(** ** Generated ids are new *)

Lemma fresh_id_above ids x : In x ids -> x < fresh_id ids.
Proof.
  unfold fresh_id. intros H.
  enough (x <= fold_right Z.max 0 ids) by lia.
  induction ids as [| a ids IH]; cbn [fold_right In] in *; [tauto |].
  destruct H as [-> | H]; [lia |]. specialize (IH H). lia.
Qed.

Lemma fresh_id_new ids : ~ In (fresh_id ids) ids.
Proof. intros H. apply fresh_id_above in H. lia. Qed.

(** ** What the writes of [create_order] touch *)


Lemma same_status_tables_refl s : same_status_tables s s.
Proof. repeat split. Qed.

Lemma same_status_tables_trans s1 s2 s3 :
  same_status_tables s1 s2 -> same_status_tables s2 s3 ->
  same_status_tables s1 s3.
Proof.
  unfold same_status_tables.
  intros (A1 & A2 & A3 & A4 & A5) (B1 & B2 & B3 & B4 & B5).
  repeat split; congruence.
Qed.

Lemma add_order_options_tables item_id opts :
  forall s r s', add_order_options item_id opts s = (r, s') ->
                 same_status_tables s s'.
Proof.
  induction opts as [| o opts IH]; intros s r s' H; simpl in H.
  - inversion H; subst. apply same_status_tables_refl.
  - unfold bind, write in H. apply IH in H.
    eapply same_status_tables_trans; [| exact H]. repeat split.
Qed.

Lemma add_order_items_tables oid items :
  forall s r s', add_order_items oid items s = (r, s') ->
                 same_status_tables s s'.
Proof.
  induction items as [| it items IH]; intros s r s' H; simpl in H.
  - inversion H; subst. apply same_status_tables_refl.
  - unfold bind at 1 in H. unfold add_order_item at 1 in H.
    unfold bind at 1 in H.
    match type of H with
    | context [add_order_options ?i ?l ?s0] =>
        destruct (add_order_options i l s0) as [[e | []] s1] eqn:E
    end.
    + destruct (add_order_options_returns
                  (fresh_id (map order_item_id (order_items s)))
                  (create_options it)
                  (set_order_items
                     (fun l => (l ++ [mkOrderItem
                        (fresh_id (map order_item_id (order_items s))) oid
                        (create_menu_id it) (create_quantity it)
                        (create_extra_requests it)])%list) s)) as [s2 E2].
      congruence.
    + apply add_order_options_tables in E. apply IH in H.
      eapply same_status_tables_trans; [| exact H].
      eapply same_status_tables_trans; [| exact E]. repeat split.
Qed.

(** A call of [create_order] that returns has appended one ORDERED order
    under a new id, carrying the validated price, and has left the
    satellite tables alone. *)
Lemma create_order_returns customer_id now payload s id s' :
  create_order customer_id now payload s = (inr id, s') ->
  exists restaurant price,
    validation payload s = (inr (restaurant, price), s) /\
    id = fresh_id (map order_id (orders s)) /\
    orders s' = (orders s ++ [mkOrder id customer_id
                                (restaurant_id restaurant) now price
                                ORDERED])%list /\
    cancelled_orders s' = cancelled_orders s /\
    preparing_orders s' = preparing_orders s /\
    ready_orders s' = ready_orders s /\
    settled_orders s' = settled_orders s.
Proof.
  rewrite create_order_split.
  destruct (validation payload s) as [[e | [r price]] s1] eqn:V;
    [discriminate |].
  pose proof (read_only_eq _ _ _ _ (read_only_validation payload) V).
  subst s1. unfold persist, bind, add_order.
  match goal with
  | |- context [add_order_items ?i ?l ?s0] =>
      destruct (add_order_items i l s0) as [[e | []] s2] eqn:E
  end; [discriminate |].
  intros H. inversion H; subst. exists r, price.
  apply add_order_items_tables in E.
  destruct E as (E1 & E2 & E3 & E4 & E5). simpl in *.
  repeat split; assumption.
Qed.

(** ** The invariant of the status machine *)

Lemma initial_well_formed s :
  orders s = [] -> cancelled_orders s = [] -> preparing_orders s = [] ->
  ready_orders s = [] -> settled_orders s = [] -> well_formed s.
Proof.
  intros O C P R X. split; rewrite ?O, ?C, ?P, ?R, ?X; simpl;
    try constructor; tauto.
Qed.

Lemma well_formed_new_order s s' o :
  well_formed s ->
  orders s' = (orders s ++ [o])%list ->
  order_id o = fresh_id (map order_id (orders s)) ->
  order_status o = ORDERED ->
  cancelled_orders s' = cancelled_orders s ->
  preparing_orders s' = preparing_orders s ->
  ready_orders s' = ready_orders s ->
  settled_orders s' = settled_orders s ->
  well_formed s'.
Proof.
  intros [Ids Wc Wp Wr Wx Wh] O Id St C P R X.
  pose proof (fresh_id_new (map order_id (orders s))) as New.
  rewrite <- Id in New.
  assert (forall i, In i (map order_id (orders s)) ->
                    In i (map order_id (orders s'))) as Mono.
  { intros i Hi. rewrite O, map_app, in_app_iff. auto. }
  split; rewrite ?C, ?P, ?R, ?X; auto.
  - rewrite O, map_app. simpl.
    apply NoDup_app; [assumption | repeat constructor; simpl; tauto |].
    intros a Ha [<- | []]. contradiction.
  - intros o' Hin. rewrite O, in_app_iff in Hin.
    unfold history_matches_status, cancelled_count, preparing_count,
      ready_count, settled_count.
    rewrite C, P, R, X.
    destruct Hin as [Hin | [<- | []]]; [exact (Wh o' Hin) |].
    rewrite St.
    repeat split; apply count_rows_absent; intros x Hx E;
      apply New; rewrite <- E; auto.
Qed.

Lemma create_order_well_formed customer_id now payload s :
  well_formed s ->
  well_formed (snd (create_order customer_id now payload s)).
Proof.
  intros W.
  destruct (create_order customer_id now payload s) as [[e | id] s'] eqn:E.
  - apply create_order_fails_validation in E. destruct E as [_ ->].
    exact W.
  - apply create_order_returns in E.
    destruct E as (r & price & _ & Id & O & C & P & R & X). simpl.
    eapply well_formed_new_order; eauto.
Qed.

Lemma map_order_id_assign_status oid st l :
  map order_id (assign_status oid st l) = map order_id l.
Proof.
  induction l as [| x l IH]; simpl; [reflexivity |].
  destruct (order_id x =? oid); simpl; [reflexivity | now rewrite IH].
Qed.

Lemma in_assign_status oid st l o' :
  NoDup (map order_id l) ->
  In o' (assign_status oid st l) ->
  (In o' l /\ order_id o' <> oid) \/
  (exists o, In o l /\ order_id o = oid /\ o' = with_status o st).
Proof.
  induction l as [| x l IH]; simpl; [tauto |].
  intros ND. inversion ND as [| ? ? Hx ND']; subst.
  destruct (order_id x =? oid) eqn:E; simpl.
  - apply Z.eqb_eq in E. intros [<- | Hin].
    + right. exists x. auto.
    + left. split; [auto |]. intros Eo. apply Hx.
      rewrite E, <- Eo. now apply in_map.
  - apply Z.eqb_neq in E. intros [<- | Hin].
    + left. auto.
    + destruct (IH ND' Hin) as [[H1 H2] | (o & H1 & H2 & H3)].
      * left. auto.
      * right. exists o. auto.
Qed.

Lemma same_id_same_order l (a b : Order) :
  NoDup (map order_id l) -> In a l -> In b l ->
  order_id a = order_id b -> a = b.
Proof.
  induction l as [| x l IH]; simpl; [tauto |].
  intros ND. inversion ND as [| ? ? Hx ND']; subst.
  intros [<- | Ha] [<- | Hb] E; auto.
  - exfalso. apply Hx. rewrite E. now apply in_map.
  - exfalso. apply Hx. rewrite <- E. now apply in_map.
Qed.


Lemma counts_fire sat s oid :
  let hit (st : OrderStatusFlag) : nat :=
    match st, satellite_status sat with
    | CANCELLED, CANCELLED | PREPARING, PREPARING
    | READY, READY | SETTLED, SETTLED =>
        if satellite_order_id sat =? oid then 1%nat else 0%nat
    | _, _ => 0%nat
    end in
  cancelled_count (fire sat s) oid
    = (cancelled_count s oid + hit CANCELLED)%nat /\
  preparing_count (fire sat s) oid
    = (preparing_count s oid + hit PREPARING)%nat /\
  ready_count (fire sat s) oid = (ready_count s oid + hit READY)%nat /\
  settled_count (fire sat s) oid = (settled_count s oid + hit SETTLED)%nat.
Proof.
  unfold cancelled_count, preparing_count, ready_count, settled_count.
  destruct sat; simpl; rewrite ?count_rows_app; repeat split; lia.
Qed.

Lemma well_formed_fire s sat o :
  well_formed s ->
  first_order s (satellite_order_id sat) = Some o ->
  edge (order_status o) (satellite_status sat) = true ->
  well_formed (fire sat s).
Proof.
  intros [Ids Wc Wp Wr Wx Wh] F Ed.
  destruct (first_order_id _ _ _ F) as [Hin Hid].
  assert (orders (fire sat s)
          = assign_status (satellite_order_id sat) (satellite_status sat)
              (orders s)) as O by (destruct sat; reflexivity).
  assert (map order_id (orders (fire sat s)) = map order_id (orders s)) as Ms
    by (rewrite O; apply map_order_id_assign_status).
  assert (In (satellite_order_id sat) (map order_id (orders s))) as Known
    by (rewrite <- Hid; now apply in_map).
  split; rewrite ?Ms; auto.
  1-4: destruct sat; simpl; auto; intros c' Hc; apply in_app_iff in Hc;
    destruct Hc as [Hc | [<- | []]]; auto.
  - intros o' Ho'. rewrite O in Ho'.
    destruct (counts_fire sat s (order_id o')) as (Cc & Cp & Cr & Cx).
    unfold history_matches_status. rewrite Cc, Cp, Cr, Cx.
    apply in_assign_status in Ho'; [| assumption].
    destruct Ho' as [[Hold Hne] | (o0 & Hold & Hid0 & ->)].
    + apply Z.eqb_neq in Hne. rewrite Z.eqb_sym in Hne. rewrite Hne.
      specialize (Wh o' Hold). unfold history_matches_status in Wh.
      destruct (order_status o'), (satellite_status sat);
        rewrite ?Nat.add_0_r; exact Wh.
    + assert (o0 = o) as ->
        by (apply (same_id_same_order (orders s)); auto; congruence).
      specialize (Wh o Hin). unfold history_matches_status in Wh.
      change (order_id (with_status o (satellite_status sat)))
        with (order_id o).
      change (order_status (with_status o (satellite_status sat)))
        with (satellite_status sat).
      rewrite <- Hid, Z.eqb_refl.
      destruct sat; simpl in *; destruct (order_status o);
        try discriminate; lia.
Qed.

(** A call of [update_order_status] that returns has followed an edge of
    the machine and has written the satellite row of the request. *)
Lemma update_order_status_returns user_id role oid status now s s' :
  update_order_status user_id role oid status now s = (inr tt, s') ->
  let sat := written_satellite role oid status now in
  exists o,
    authorized s user_id role oid o /\
    satellite_order_id sat = oid /\
    satellite_status sat = target_status status /\
    edge (order_status o) (target_status status) = true /\
    s' = fire sat s.
Proof.
  unfold update_order_status. intros H.
  destruct (bind_inv _ _ _ _ _ H) as [(e & _ & Ee) | (o & s1 & G & T)];
    [discriminate |].
  destruct (authorized_first_order _ _ _ _ _ _ G) as [F ->].
  destruct (first_order_id _ _ _ F) as [_ Hid].
  exists o. split; [exact G |].
  split; [destruct status; reflexivity |].
  split; [destruct status; reflexivity |].
  unfold transition, commit_cancelled, commit_settled, commit_preparing,
    commit_ready in T. rewrite Hid in T.
  destruct role, (order_status o), status; try discriminate;
    inversion T; split; reflexivity.
Qed.

Lemma update_order_status_fails user_id role oid status now s e s' :
  update_order_status user_id role oid status now s = (inl e, s') -> s' = s.
Proof.
  unfold update_order_status. intros H.
  destruct (bind_inv _ _ _ _ _ H) as [(e' & G & _) | (o & s1 & G & T)].
  - exact (read_only_eq _ _ _ _
             (read_only_get_order_with_validation user_id role oid) G).
  - destruct (authorized_first_order _ _ _ _ _ _ G) as [_ ->].
    unfold transition, commit_cancelled, commit_settled, commit_preparing,
      commit_ready in T.
    destruct role, (order_status o), status; inversion T; reflexivity.
Qed.

Lemma update_order_status_well_formed user_id role oid status now s :
  well_formed s ->
  well_formed (snd (update_order_status user_id role oid status now s)).
Proof.
  intros W.
  destruct (update_order_status user_id role oid status now s)
    as [[e | []] s'] eqn:E; simpl.
  - apply update_order_status_fails in E. now subst.
  - apply update_order_status_returns in E.
    destruct E as (o & A & Hid & Hst & Ed & ->).
    apply authorized_first_order in A. destruct A as [F _].
    apply well_formed_fire with (o := o).
    + exact W.
    + now rewrite Hid.
    + now rewrite Hst.
Qed.

Lemma well_formed_elsewhere s s' :
  well_formed s -> same_status_tables s s' -> well_formed s'.
Proof.
  intros [Ids Wc Wp Wr Wx Wh] (O & C & P & R & X).
  split; rewrite ?O, ?C, ?P, ?R, ?X; auto.
  intros o Hin. specialize (Wh o Hin).
  unfold history_matches_status, cancelled_count, preparing_count,
    ready_count, settled_count in *.
  now rewrite C, P, R, X.
Qed.

Lemma step_well_formed s s' : step s s' -> well_formed s -> well_formed s'.
Proof.
  destruct 1; intros W.
  - now apply create_order_well_formed.
  - now apply update_order_status_well_formed.
  - now apply well_formed_elsewhere with (s := s).
Qed.

Lemma reachable_well_formed s : reachable s -> well_formed s.
Proof.
  induction 1 as [s O C P R X | s s' _ IH St].
  - now apply initial_well_formed.
  - exact (step_well_formed s s' St IH).
Qed.

Lemma well_formed_consistent s :
  well_formed s -> status_satellite_consistent s.
Proof.
  intros W o Hin. pose proof (wf_history s W o Hin) as H.
  unfold history_matches_status in H. unfold satellite_matches_status.
  destruct (order_status o); tauto.
Qed.

Lemma consistent_projection s o :
  satellite_matches_status s o ->
  exists status, get_status_no_validation o s = (inr status, s).
Proof.
  unfold satellite_matches_status, get_status_no_validation, bind, query,
    cancelled_count, preparing_count, ready_count, settled_count,
    first_cancelled, first_preparing, first_ready, first_settled.
  destruct (order_status o); intros H.
  - eexists. reflexivity.
  - destruct (count_rows_positive preparing_order_id (order_id o)
                (preparing_orders s)) as [x ->]; [lia |].
    eexists. reflexivity.
  - destruct (count_rows_positive ready_order_id (order_id o)
                (ready_orders s)) as [x ->]; [lia |].
    eexists. reflexivity.
  - destruct (count_rows_positive settled_order_id (order_id o)
                (settled_orders s)) as [x ->]; [lia |].
    eexists. reflexivity.
  - destruct (count_rows_positive cancelled_order_id (order_id o)
                (cancelled_orders s)) as [x ->]; [lia |].
    eexists. reflexivity.
Qed.

(** C5. Every session reachable by [create_order] and
    [update_order_status] satisfies the status/satellite invariant: an
    ORDERED order has no satellite row, an order in any other status has
    exactly one row of the matching kind.  Both operations keep it, whether
    they return or raise.  Hence the status projection of a stored order
    returns a payload, and neither it nor [get_order_status] ever raises
    [InternalServerError] there. *)
Theorem reachable_status_satellite_consistent s :
  reachable s ->
  status_satellite_consistent s /\
  (forall customer_id now payload,
     status_satellite_consistent
       (snd (create_order customer_id now payload s))) /\
  (forall user_id role oid status now,
     status_satellite_consistent
       (snd (update_order_status user_id role oid status now s))) /\
  (forall o, In o (orders s) ->
     exists status, get_status_no_validation o s = (inr status, s)) /\
  (forall user_id role oid msg,
     fst (get_order_status user_id role oid s)
     <> inl (InternalServerError msg)).
Proof.
  intros R. pose proof (reachable_well_formed s R) as W.
  pose proof (well_formed_consistent s W) as C.
  split; [exact C |].
  split; [intros; apply well_formed_consistent,
            create_order_well_formed, W |].
  split; [intros; apply well_formed_consistent,
            update_order_status_well_formed, W |].
  split; [intros o Hin; apply consistent_projection, C, Hin |].
  intros user_id role oid msg. unfold get_order_status.
  destruct (get_order_with_validation user_id role oid s)
    as [[e | o] s1] eqn:G.
  - rewrite (bind_inl _ _ _ _ _ G). simpl.
    unfold get_order_with_validation, bind, query in G.
    destruct (first_order s oid); [| inversion G; discriminate].
    destruct role.
    + destruct (negb _); inversion G; discriminate.
    + destruct (first_owned_restaurant _ _ _); inversion G; discriminate.
  - rewrite (bind_inr _ _ _ _ _ G).
    destruct (authorized_first_order _ _ _ _ _ _ G) as [F ->].
    destruct (first_order_id _ _ _ F) as [Hin _].
    destruct (consistent_projection s o (C o Hin)) as [st ->].
    simpl. discriminate.
Qed.

Lemma reachable_sample_preparing : reachable Sample.preparing.
Proof.
  unfold Sample.preparing, Sample.ordered.
  eapply reachable_step; [| apply step_update].
  eapply reachable_step; [| apply step_create].
  apply reachable_initial; reflexivity.
Qed.

(** The sample order, being prepared, projects to a payload. *)
Lemma reachable_status_satellite_consistent_witness :
  exists status,
    get_status_no_validation
      (mkOrder 1 7 1 100 (Dec.mk 1025 (-2)) PREPARING) Sample.preparing
    = (inr status, Sample.preparing).
Proof.
  destruct (reachable_status_satellite_consistent Sample.preparing
              reachable_sample_preparing) as (_ & _ & _ & H & _).
  apply H. left. reflexivity.
Defined.

(** ** Terminal statuses *)

Lemma find_app_found {A : Type} (f : A -> bool) l l' x :
  find f l = Some x -> find f (l ++ l') = Some x.
Proof.
  induction l as [| a l IH]; simpl; [discriminate |].
  destruct (f a); auto.
Qed.

Lemma find_assign_status_other oid oid' st l :
  oid' <> oid ->
  find (fun o => order_id o =? oid) (assign_status oid' st l)
  = find (fun o => order_id o =? oid) l.
Proof.
  intros Ne. induction l as [| x l IH]; simpl; [reflexivity |].
  destruct (order_id x =? oid') eqn:E'; simpl.
  - apply Z.eqb_eq in E'.
    assert ((order_id x =? oid) = false) as -> by (apply Z.eqb_neq; lia).
    reflexivity.
  - destruct (order_id x =? oid); [reflexivity | exact IH].
Qed.

Lemma step_keeps_terminal s s' oid st :
  step s s' ->
  st = CANCELLED \/ st = SETTLED ->
  status_of s oid = Some st -> status_of s' oid = Some st.
Proof.
  unfold status_of, first_order.
  destruct 1 as [s customer_id now payload | s user_id role oid' status now
                | s s' (O & _)]; intros Term St.
  - destruct (create_order customer_id now payload s) as [[e | id] s'] eqn:E;
      simpl.
    + apply create_order_fails_validation in E. destruct E as [_ ->].
      exact St.
    + apply create_order_returns in E.
      destruct E as (r & price & _ & _ & O & _). rewrite O.
      destruct (find _ (orders s)) as [o |] eqn:F; [| discriminate].
      now rewrite (find_app_found _ _ _ _ F).
  - destruct (update_order_status user_id role oid' status now s)
      as [[e | []] s'] eqn:E; simpl.
    + apply update_order_status_fails in E. now subst.
    + apply update_order_status_returns in E.
      destruct E as (o' & A & Hid & Hst & Ed & ->).
      apply authorized_first_order in A. destruct A as [F _].
      replace (orders (fire (written_satellite role oid' status now) s))
        with (assign_status oid' (target_status status) (orders s))
        by (destruct status; reflexivity).
      destruct (Z.eq_dec oid' oid) as [-> | Ne].
      * exfalso. unfold first_order in F. rewrite F in St.
        simpl in St. inversion St as [St'].
        rewrite St' in Ed.
        destruct Term; subst st; destruct status; discriminate.
      * now rewrite find_assign_status_other.
  - now rewrite O.
Qed.

Lemma evolves_keeps_terminal s s' oid st :
  evolves s s' ->
  st = CANCELLED \/ st = SETTLED ->
  status_of s oid = Some st -> status_of s' oid = Some st.
Proof.
  induction 1 as [| s1 s2 _ IH St]; intros Term H; [exact H |].
  apply (step_keeps_terminal s1 s2 oid st St Term). auto.
Qed.

(** C4. An order that is CANCELLED or SETTLED never changes status again.
    Whoever calls, in whatever role and with whatever request,
    [update_order_status] raises and leaves the session as it was; for an
    actor who passes the ownership checks the error is
    [InvalidArgumentError].  And whatever operations follow, on this order
    or on others, the order keeps its status. *)
Theorem terminal_status_is_final user_id role oid status now s o :
  first_order s oid = Some o ->
  order_status o = CANCELLED \/ order_status o = SETTLED ->
  (exists e, update_order_status user_id role oid status now s = (inl e, s)) /\
  (authorized s user_id role oid o ->
     exists msg, update_order_status user_id role oid status now s
                 = (inl (InvalidArgumentError msg), s)) /\
  (forall s', evolves s s' -> status_of s' oid = Some (order_status o)).
Proof.
  intros F St.
  assert (exists msg, transition role o status now
                      = raise (InvalidArgumentError msg)) as [msg T].
  { unfold transition.
    destruct St as [St | St]; rewrite St;
      destruct role, status; eexists; reflexivity. }
  split; [| split].
  - unfold update_order_status.
    destruct (get_order_with_validation user_id role oid s)
      as [[e | o'] s1] eqn:G.
    + pose proof (read_only_eq _ _ _ _
        (read_only_get_order_with_validation user_id role oid) G).
      subst s1. exists e. now apply bind_inl.
    + destruct (authorized_first_order _ _ _ _ _ _ G) as [F' ->].
      rewrite F in F'. inversion F'; subst o'.
      exists (InvalidArgumentError msg).
      rewrite (bind_inr _ _ _ _ _ G), T. reflexivity.
  - intros A. exists msg. now apply update_rejected with (o := o).
  - intros s' Ev. apply (evolves_keeps_terminal s s' oid _ Ev St).
    unfold status_of. now rewrite F.
Qed.

(** Once the customer has cancelled the sample order, the merchant can no
    longer start preparing it. *)
Lemma terminal_status_is_final_witness :
  exists msg,
    update_order_status 10 MERCHANT 1 PreparingOrderUpdate 300
      Sample.cancelled
    = (inl (InvalidArgumentError msg), Sample.cancelled).
Proof.
  apply (terminal_status_is_final 10 MERCHANT 1 PreparingOrderUpdate 300
           Sample.cancelled
           (mkOrder 1 7 1 100 (Dec.mk 1025 (-2)) CANCELLED)).
  - reflexivity.
  - left. reflexivity.
  - reflexivity.
Defined.

(** ** Reading back the status after a transition *)

(** C8. After [update_order_status] has returned on a reachable session,
    the session holds the satellite row of the request, appended to its
    table, and [get_order_status], called by any actor who passes the
    ownership checks, returns the payload that carries the fields of that
    row: the same status kind and timestamp and, for a cancellation, the
    same [cancelled_by] and the reason string as it was given. *)
Theorem status_round_trip s user_id role oid status now s'
    reader reader_role o' :
  reachable s ->
  update_order_status user_id role oid status now s = (inr tt, s') ->
  authorized s' reader reader_role oid o' ->
  let sat := written_satellite role oid status now in
  s' = fire sat s /\
  get_order_status reader reader_role oid s'
  = (inr (satellite_payload sat), s').
Proof.
  intros R U A sat.
  pose proof (reachable_well_formed s R) as W.
  apply update_order_status_returns in U.
  destruct U as (o & Ao & Hid & Hst & Ed & ->).
  split; [reflexivity |].
  apply authorized_first_order in Ao. destruct Ao as [F _].
  destruct (first_order_id _ _ _ F) as [Hin Ho].
  pose proof (wf_history s W o Hin) as Hist.
  unfold history_matches_status in Hist.
  unfold get_order_status. rewrite (bind_inr _ _ _ _ _ A).
  apply authorized_first_order in A. destruct A as [F' _].
  assert (o' = with_status o (target_status status)) as ->.
  { unfold first_order in F'.
    replace (orders (fire (written_satellite role oid status now) s))
      with (assign_status oid (target_status status) (orders s)) in F'
      by (destruct status; reflexivity).
    unfold first_order in F.
    rewrite (find_assign_status _ _ _ _ F) in F'. congruence. }
  unfold get_status_no_validation, bind, query, first_cancelled,
    first_preparing, first_ready, first_settled.
  unfold cancelled_count, preparing_count, ready_count, settled_count in Hist.
  subst sat. rewrite Ho in Hist.
  destruct status; simpl in *;
    (rewrite Ho, find_app_last; [reflexivity | | reflexivity]);
    destruct (order_status o); try discriminate; tauto.
Qed.

Lemma reachable_sample_ordered : reachable Sample.ordered.
Proof.
  unfold Sample.ordered.
  eapply reachable_step; [| apply step_create].
  apply reachable_initial; reflexivity.
Qed.

(** The customer cancels the sample order and the merchant reads the
    reason back as it was written. *)
Lemma status_round_trip_witness :
  get_order_status 10 MERCHANT 1 Sample.cancelled
  = (inr (CancelledOrderSchema ByCustomer 150 "changed my mind"),
     Sample.cancelled).
Proof.
  apply (status_round_trip Sample.ordered 7 CUSTOMER 1
           (CancelledOrderUpdate "changed my mind") 150 Sample.cancelled
           10 MERCHANT (mkOrder 1 7 1 100 (Dec.mk 1025 (-2)) CANCELLED)).
  - exact reachable_sample_ordered.
  - reflexivity.
  - reflexivity.
Defined.

(** ** Decimal addition *)

Lemma units_add_exact sc a b :
  - sc <= Dec.dexp a -> - sc <= Dec.dexp b ->
  Dec.units sc (Dec.add_exact a b) = Dec.units sc a + Dec.units sc b.
Proof.
  intros Ha Hb. unfold Dec.units, Dec.add_exact. cbn [Dec.coef Dec.dexp].
  set (e := Z.min (Dec.dexp a) (Dec.dexp b)).
  assert (e <= Dec.dexp a /\ e <= Dec.dexp b /\ - sc <= e) as (E1 & E2 & E3)
    by (unfold e; lia).
  rewrite Z.mul_add_distr_r, <- !Z.mul_assoc, <- !Z.pow_add_r by lia.
  f_equal; do 2 f_equal; lia.
Qed.

Lemma units_zero sc : Dec.units sc Dec.zero = 0.
Proof. reflexivity. Qed.

Lemma units_nonneg sc d : Dec.bounded sc d -> 0 <= Dec.units sc d.
Proof.
  intros [Hc He]. unfold Dec.units.
  apply Z.mul_nonneg_nonneg; [assumption |]. apply Z.pow_nonneg. lia.
Qed.

Lemma coef_le_units sc d : Dec.bounded sc d -> Dec.coef d <= Dec.units sc d.
Proof.
  intros [Hc He]. unfold Dec.units.
  assert (0 < 10 ^ (Dec.dexp d + sc)) by (apply Z.pow_pos_nonneg; lia).
  nia.
Qed.

Lemma bounded_add_exact sc a b :
  Dec.bounded sc a -> Dec.bounded sc b -> Dec.bounded sc (Dec.add_exact a b).
Proof.
  intros [Ha Ea] [Hb Eb]. unfold Dec.bounded, Dec.add_exact.
  cbn [Dec.coef Dec.dexp]. split; [| lia].
  apply Z.add_nonneg_nonneg; apply Z.mul_nonneg_nonneg;
    try assumption; apply Z.pow_nonneg; lia.
Qed.

(** No digit is lost as long as the sum fits the precision. *)
Lemma add_without_rounding sc a b :
  Dec.bounded sc a -> Dec.bounded sc b ->
  Dec.units sc a + Dec.units sc b < 10 ^ Dec.prec ->
  Dec.add a b = Dec.add_exact a b.
Proof.
  intros Ba Bb Lt. unfold Dec.add, Dec.fix_.
  pose proof (bounded_add_exact sc a b Ba Bb) as Bs.
  pose proof (coef_le_units sc _ Bs) as Le.
  rewrite units_add_exact in Le by (destruct Ba, Bb; assumption).
  destruct Bs as [Hs _].
  rewrite Z.abs_eq by assumption.
  destruct (Dec.coef (Dec.add_exact a b) <? 10 ^ Dec.prec) eqn:E;
    [reflexivity |].
  apply Z.ltb_ge in E. lia.
Qed.

Lemma total_units_cons sc d prices :
  total_units sc (d :: prices) = Dec.units sc d + total_units sc prices.
Proof. reflexivity. Qed.

Lemma total_units_nonneg sc prices :
  Forall (Dec.bounded sc) prices -> 0 <= total_units sc prices.
Proof.
  induction 1 as [| d l Hd _ IH]; [reflexivity |].
  rewrite total_units_cons. pose proof (units_nonneg sc d Hd). lia.
Qed.

Lemma fold_add_without_rounding sc prices :
  Forall (Dec.bounded sc) prices ->
  forall acc,
    Dec.bounded sc acc ->
    Dec.units sc acc + total_units sc prices < 10 ^ Dec.prec ->
    fold_left Dec.add prices acc = fold_left Dec.add_exact prices acc /\
    Dec.units sc (fold_left Dec.add prices acc)
    = Dec.units sc acc + total_units sc prices.
Proof.
  induction 1 as [| d l Hd Hl IH]; intros acc Ba Lt; cbn [fold_left].
  - change (total_units sc []) with 0. split; [reflexivity | lia].
  - rewrite total_units_cons in *.
    pose proof (total_units_nonneg sc l Hl) as Nl.
    pose proof (units_nonneg sc d Hd) as Nd.
    assert (Dec.add acc d = Dec.add_exact acc d) as ->
      by (apply add_without_rounding with (sc := sc); auto; lia).
    assert (Dec.units sc (Dec.add_exact acc d)
            = Dec.units sc acc + Dec.units sc d) as U
      by (apply units_add_exact; [destruct Ba | destruct Hd]; assumption).
    destruct (IH (Dec.add_exact acc d)) as [E1 E2].
    + now apply bounded_add_exact.
    + lia.
    + split; [exact E1 |]. rewrite E2, U. lia.
Qed.

(** ** What a passed validation has established *)

Lemma check_options_returns menu opts :
  forall seen price s seen' price' s',
    check_options menu opts seen price s = (inr (seen', price'), s') ->
    seen' = (seen ++ resolved_customizations s opts)%list /\
    price' = fold_left Dec.add (option_prices s opts) price.
Proof.
  induction opts as [| oc opts IH]; intros seen price s seen' price' s' H.
  - inversion H; subst. simpl. rewrite app_nil_r. auto.
  - cbn [check_options] in H. unfold bind at 1 in H. unfold query in H.
    unfold resolved_customizations, option_prices. cbn [flat_map].
    fold (resolved_customizations s opts). fold (option_prices s opts).
    destruct (first_option_customization s (create_option_id oc))
      as [[o c] |]; [| discriminate].
    destruct (negb _); [discriminate |].
    apply IH in H. destruct H as [-> ->].
    rewrite <- app_assoc. split; [reflexivity |].
    rewrite fold_left_app.
    destruct (option_extra_price o); reflexivity.
Qed.

Lemma check_required_returns menu required seen s s' :
  check_required menu required seen s = (inr tt, s') ->
  forall c, In c required -> mem (customization_id c) seen = true.
Proof.
  induction required as [| x required IH]; simpl; [tauto |].
  destruct (mem (customization_id x) seen) eqn:E; simpl; [| discriminate].
  intros H c [<- | Hc]; auto.
Qed.

Lemma check_unique_returns menu uniques seen s s' :
  check_unique menu uniques seen s = (inr tt, s') ->
  forall c, In c uniques -> count seen (customization_id c) <= 1.
Proof.
  induction uniques as [| x uniques IH]; simpl; [tauto |].
  destruct (1 <? count seen (customization_id x)) eqn:E; [discriminate |].
  apply Z.ltb_ge in E. intros H c [<- | Hc]; auto.
Qed.


Lemma check_item_returns restaurant order price s price' s' :
  check_item restaurant order price s = (inr price', s') ->
  price' = fold_left Dec.add (item_prices s order) price /\
  item_accepted s restaurant order.
Proof.
  unfold check_item, item_prices, item_accepted.
  unfold bind at 1. unfold query at 1.
  destruct (first_menu s (create_menu_id order)) as [menu |];
    [| discriminate].
  destruct (menu_restaurant_id menu =? restaurant_id restaurant) eqn:Er;
    [| discriminate].
  destruct (create_quantity order <? 1) eqn:Eq; [discriminate |].
  cbn [negb]. intros H.
  apply bind_inv in H.
  destruct H as [(e & _ & ?) | ([seen p1] & s1 & O & H)]; [discriminate |].
  pose proof (read_only_eq _ _ _ _ (read_only_check_options _ _ _ _) O).
  subst s1. apply check_options_returns in O. destruct O as [Es Ep].
  simpl in Es. subst seen.
  unfold bind at 1 in H. unfold query at 1 in H. cbn [fst snd] in H.
  apply bind_inv in H.
  destruct H as [(e & _ & ?) | ([] & s1 & Rq & H)]; [discriminate |].
  pose proof (read_only_eq _ _ _ _ (read_only_check_required _ _ _) Rq).
  subst s1. unfold bind at 1 in H. unfold query at 1 in H.
  apply bind_inv in H.
  destruct H as [(e & _ & ?) | ([] & s1 & Un & H)]; [discriminate |].
  inversion H; subst. split.
  - reflexivity.
  - exists menu. apply Z.eqb_eq in Er. apply Z.ltb_ge in Eq.
    repeat split; auto.
    + exact (check_required_returns _ _ _ _ _ Rq).
    + exact (check_unique_returns _ _ _ _ _ Un).
Qed.

Lemma check_items_returns restaurant items :
  forall price s price' s',
    check_items restaurant items price s = (inr price', s') ->
    price' = fold_left Dec.add (flat_map (item_prices s) items) price /\
    Forall (item_accepted s restaurant) items.
Proof.
  induction items as [| it items IH]; intros price s price' s' H.
  - inversion H; subst. simpl. auto.
  - cbn [check_items] in H. apply bind_inv in H.
    destruct H as [(e & _ & ?) | (p1 & s1 & I & H)]; [discriminate |].
    pose proof (read_only_eq _ _ _ _ (read_only_check_item _ _ _) I).
    subst s1. apply check_item_returns in I. destruct I as [-> Acc].
    apply IH in H. destruct H as [-> Accs].
    cbn [flat_map]. rewrite fold_left_app. auto.
Qed.

Lemma validation_returns payload s restaurant price s' :
  validation payload s = (inr (restaurant, price), s') ->
  get_restaurant (create_restaurant_id payload) s = (inr restaurant, s) /\
  check_items restaurant (create_items payload) Dec.zero s = (inr price, s) /\
  price = rounded_total (payload_prices s payload) /\
  Forall (item_accepted s restaurant) (create_items payload).
Proof.
  unfold validation. intros H. apply bind_inv in H.
  destruct H as [(e & _ & ?) | (r & s1 & G & H)]; [discriminate |].
  pose proof (read_only_eq _ _ _ _ (read_only_get_restaurant _) G).
  subst s1. apply bind_inv in H.
  destruct H as [(e & _ & ?) | (p & s1 & C & H)]; [discriminate |].
  pose proof (read_only_eq _ _ _ _ (read_only_check_items _ _ _) C).
  subst s1. inversion H; subst.
  destruct (check_items_returns _ _ _ _ _ _ C) as [Ep Acc]. auto.
Qed.

(** ** The price of an order *)

(** C1, as the code has it.  When [create_order] returns, the order it
    has stored carries as [price_paid] the sum, over the line items in
    payload order, of the base price of the item's menu and the extra
    price of every selected option that has one, accumulated with Python's
    decimal addition, which rounds each partial sum to 28 significant
    digits.  Whenever the prices are non-negative with at most [sc]
    fractional digits and their total, counted in units of [10 ^ (- sc)],
    stays below [10 ^ 28], no addition rounds and [price_paid] is exactly
    that total. *)
Theorem price_paid_is_sum customer_id now payload s id s' :
  create_order customer_id now payload s = (inr id, s') ->
  exists o,
    orders s' = (orders s ++ [o])%list /\ order_id o = id /\
    order_price_paid o = rounded_total (payload_prices s payload) /\
    forall sc,
      0 <= sc ->
      Forall (Dec.bounded sc) (payload_prices s payload) ->
      total_units sc (payload_prices s payload) < 10 ^ Dec.prec ->
      order_price_paid o = exact_total (payload_prices s payload) /\
      Dec.units sc (order_price_paid o)
      = total_units sc (payload_prices s payload).
Proof.
  intros H. apply create_order_returns in H.
  destruct H as (r & price & V & Id & O & _). eexists.
  split; [exact O |]. split; [reflexivity |].
  apply validation_returns in V. destruct V as (_ & _ & P & _).
  cbn [order_price_paid]. split; [exact P |].
  intros sc Hsc B Lt. subst price. unfold rounded_total, exact_total.
  destruct (fold_add_without_rounding sc _ B Dec.zero) as [E U].
  - split; [reflexivity |]. change (Dec.dexp Dec.zero) with 0. lia.
  - now rewrite units_zero.
  - split; [exact E |]. now rewrite U, units_zero.
Qed.

(** 1 x Burger (8.00) with Large (+1.50) and Extra Cheese (+0.75) is
    stored at 10.25: 1025 hundredths. *)
Lemma price_paid_is_sum_witness :
  exists o,
    orders Sample.ordered = [o] /\
    Dec.units 2 (order_price_paid o) = 800 + 150 + 75.
Proof.
  destruct (price_paid_is_sum 7 100 Sample.payload Sample.catalogue 1
              Sample.ordered eq_refl) as (o & O & _ & _ & Exact).
  exists o. split; [exact O |].
  destruct (Exact 2) as [_ U].
  - lia.
  - repeat constructor; simpl; lia.
  - reflexivity.
  - exact U.
Defined.

(** C1 as it stands fails where a partial sum needs a 29th digit: the menu
    costs 9999999999999999999999999999 and the option 0.5, the exact sum
    is 9999999999999999999999999999.5, and the stored price is
    1.000000000000000000000000000E+28. *)
Lemma price_paid_exact_counterexample : ~ price_paid_exact_as_stated.
Proof.
  intros Claim.
  destruct (Claim 7 100 Rounding.payload Rounding.catalogue 1
              (snd (create_order 7 100 Rounding.payload Rounding.catalogue)))
    as (o & O & E).
  - vm_compute. reflexivity.
  - vm_compute in O. inversion O; subst o.
    vm_compute in E. discriminate.
Qed.

(** ** Quantities do not enter the price *)

Lemma check_item_ignores_quantity restaurant a b price s :
  same_item_but_quantity a b ->
  1 <= create_quantity a -> 1 <= create_quantity b ->
  check_item restaurant a price s = check_item restaurant b price s.
Proof.
  intros (Em & _ & Eo) Qa Qb. unfold check_item, bind, query.
  rewrite <- Em, <- Eo.
  destruct (first_menu s (create_menu_id a)); [| reflexivity].
  destruct (negb _); [reflexivity |].
  rewrite (proj2 (Z.ltb_ge (create_quantity a) 1) Qa).
  rewrite (proj2 (Z.ltb_ge (create_quantity b) 1) Qb).
  reflexivity.
Qed.

Lemma check_items_ignore_quantity restaurant xs ys s :
  Forall2 same_item_but_quantity xs ys ->
  Forall (fun order => 1 <= create_quantity order) xs ->
  Forall (fun order => 1 <= create_quantity order) ys ->
  forall price,
    check_items restaurant xs price s = check_items restaurant ys price s.
Proof.
  induction 1 as [| a b xs ys Hab _ IH]; intros Qx Qy price;
    [reflexivity |].
  inversion Qx; inversion Qy; subst. cbn [check_items]. unfold bind.
  rewrite (check_item_ignores_quantity restaurant a b price s) by assumption.
  destruct (check_item restaurant b price s) as [[e | p1] s1] eqn:E;
    [reflexivity |].
  rewrite (read_only_eq _ _ _ _ (read_only_check_item restaurant b price) E).
  auto.
Qed.

Lemma validation_ignores_quantity p q s :
  same_but_quantities p q -> quantities_valid p -> quantities_valid q ->
  validation p s = validation q s.
Proof.
  intros [Er Ei] Qp Qq. unfold validation, bind. rewrite <- Er.
  destruct (get_restaurant (create_restaurant_id p) s) as [[e | r] s1];
    [reflexivity |].
  now rewrite (check_items_ignore_quantity r _ _ s1 Ei Qp Qq Dec.zero).
Qed.

(** Two payloads that differ only in the quantities of their items, all
    at least 1, fare alike in [create_order]: the same error, or the same
    new id and the same Order row. *)
Lemma create_order_ignores_quantity customer_id now p q s :
  same_but_quantities p q ->
  quantities_valid p -> quantities_valid q ->
  fst (create_order customer_id now p s)
  = fst (create_order customer_id now q s) /\
  orders (snd (create_order customer_id now p s))
  = orders (snd (create_order customer_id now q s)) /\
  map order_price_paid (orders (snd (create_order customer_id now p s)))
  = map order_price_paid (orders (snd (create_order customer_id now q s))).
Proof.
  intros Same Qp Qq.
  pose proof (validation_ignores_quantity p q s Same Qp Qq) as V.
  enough (fst (create_order customer_id now p s)
          = fst (create_order customer_id now q s) /\
          orders (snd (create_order customer_id now p s))
          = orders (snd (create_order customer_id now q s))) as [E1 E2]
    by (rewrite E1, E2; auto).
  destruct (create_order customer_id now p s) as [[e | id] s1] eqn:Cp.
  - apply create_order_fails_validation in Cp. destruct Cp as [Vp ->].
    rewrite V in Vp.
    rewrite (validation_fails_create_order customer_id now q s e s Vp).
    auto.
  - apply create_order_returns in Cp.
    destruct Cp as (r & price & Vp & Id & O & _).
    rewrite V in Vp. rewrite create_order_split, Vp.
    destruct (persist customer_id now q r price s) as [rq s2] eqn:Pq.
    assert (create_order customer_id now q s = (rq, s2)) as Cq
      by (now rewrite create_order_split, Vp).
    destruct rq as [e | id2].
    + apply create_order_fails_validation in Cq. destruct Cq as [Vq _].
      congruence.
    + apply create_order_returns in Cq.
      destruct Cq as (r2 & price2 & Vq & Id2 & O2 & _).
      rewrite Vp in Vq. inversion Vq; subst r2 price2.
      simpl. rewrite O, O2, Id, Id2. auto.
Qed.

Lemma item_prices_ignore_quantity s a b :
  same_item_but_quantity a b -> item_prices s a = item_prices s b.
Proof. intros (Em & _ & Eo). unfold item_prices. now rewrite Em, Eo. Qed.

Lemma payload_prices_ignore_quantity s p q :
  same_but_quantities p q -> payload_prices s p = payload_prices s q.
Proof.
  intros [_ Items]. unfold payload_prices.
  induction Items as [| a b xs ys Hab _ IH]; [reflexivity |].
  cbn [flat_map]. now rewrite (item_prices_ignore_quantity s a b Hab), IH.
Qed.

Lemma total_units_append sc l1 l2 :
  total_units sc (l1 ++ l2) = total_units sc l1 + total_units sc l2.
Proof.
  induction l1 as [| d l1 IH]; [reflexivity |].
  rewrite <- app_comm_cons, !total_units_cons, IH. lia.
Qed.

Lemma option_units_total sc s opts :
  total_units sc (option_prices s opts)
  = fold_right Z.add 0 (map (option_units sc s) opts).
Proof.
  unfold option_prices.
  induction opts as [| oc opts IH]; [reflexivity |].
  cbn [flat_map map fold_right]. rewrite total_units_append, IH.
  f_equal. unfold option_units.
  destruct (first_option_customization s (create_option_id oc))
    as [[o c] |]; [| reflexivity].
  destruct (option_extra_price o); [| reflexivity].
  rewrite total_units_cons. change (total_units sc []) with 0. lia.
Qed.

Lemma item_units_total sc s order :
  total_units sc (item_prices s order) = item_units sc s order.
Proof.
  unfold item_prices, item_units.
  rewrite total_units_append, option_units_total. f_equal.
  destruct (first_menu s (create_menu_id order)); [| reflexivity].
  rewrite total_units_cons. change (total_units sc []) with 0. lia.
Qed.

Lemma payload_units_total sc s payload :
  total_units sc (payload_prices s payload) = payload_units sc s payload.
Proof.
  unfold payload_prices, payload_units.
  induction (create_items payload) as [| it items IH]; [reflexivity |].
  cbn [flat_map map fold_right].
  now rewrite total_units_append, item_units_total, IH.
Qed.

(** C10. [price_paid] does not depend on the quantities.  Two payloads
    that differ only in the quantities of their items, all at least 1,
    fare alike in [create_order]: the same error, or the same new id and
    the same Order row, hence the same [price_paid].  And that price is
    made of what each line item adds once, whatever its quantity: it is
    the sum, accumulated by Python's decimal addition, of the base price
    of the item's menu and the extra prices of its selected options; as
    long as these are non-negative with at most [sc] fractional digits and
    their total stays below [10 ^ 28] units of [10 ^ (- sc)], it is
    exactly the sum over the items of the units of the base price plus
    the units of each extra price, with no factor for the quantity. *)
Theorem price_paid_ignores_quantity customer_id now p q s :
  same_but_quantities p q ->
  quantities_valid p -> quantities_valid q ->
  fst (create_order customer_id now p s)
  = fst (create_order customer_id now q s) /\
  orders (snd (create_order customer_id now p s))
  = orders (snd (create_order customer_id now q s)) /\
  map order_price_paid (orders (snd (create_order customer_id now p s)))
  = map order_price_paid (orders (snd (create_order customer_id now q s))) /\
  payload_prices s p = payload_prices s q /\
  (forall id s1,
     create_order customer_id now p s = (inr id, s1) ->
     exists o,
       orders s1 = (orders s ++ [o])%list /\
       orders (snd (create_order customer_id now q s))
       = (orders s ++ [o])%list /\
       order_price_paid o = rounded_total (payload_prices s p) /\
       forall sc,
         0 <= sc ->
         Forall (Dec.bounded sc) (payload_prices s p) ->
         payload_units sc s p < 10 ^ Dec.prec ->
         Dec.units sc (order_price_paid o) = payload_units sc s p /\
         payload_units sc s q = payload_units sc s p).
Proof.
  intros Same Qp Qq.
  destruct (create_order_ignores_quantity customer_id now p q s Same Qp Qq)
    as (E1 & E2 & E3).
  pose proof (payload_prices_ignore_quantity s p q Same) as Pr.
  split; [exact E1 |]. split; [exact E2 |]. split; [exact E3 |].
  split; [exact Pr |].
  intros id s1 C. rewrite C in E2. simpl in E2.
  apply create_order_returns in C.
  destruct C as (r & price & V & Id & O & _). eexists.
  split; [exact O |]. split; [now rewrite <- E2 |].
  apply validation_returns in V. destruct V as (_ & _ & P & _).
  cbn [order_price_paid]. split; [exact P |].
  intros sc Hsc B Lt. subst price. unfold rounded_total.
  rewrite <- payload_units_total in Lt.
  destruct (fold_add_without_rounding sc _ B Dec.zero) as [_ U].
  - split; [reflexivity |]. change (Dec.dexp Dec.zero) with 0. lia.
  - now rewrite units_zero.
  - split.
    + rewrite U, units_zero, payload_units_total. lia.
    + now rewrite <- !payload_units_total, Pr.
Qed.

(** Three burgers with Large and Extra Cheese are stored at 10.25, the
    price of one: 800 + 150 + 75 hundredths. *)
Lemma price_paid_ignores_quantity_witness :
  exists o,
    orders (snd (create_order 7 100
                   (mkOrderCreate 1 [Sample.item 1 3 [1; 2]])
                   Sample.catalogue)) = [o] /\
    Dec.units 2 (order_price_paid o) = 800 + 150 + 75.
Proof.
  destruct (price_paid_ignores_quantity 7 100
              (mkOrderCreate 1 [Sample.item 1 3 [1; 2]]) Sample.payload
              Sample.catalogue) as (_ & _ & _ & _ & H).
  - split; [reflexivity |]. repeat constructor.
  - repeat constructor. simpl. lia.
  - repeat constructor. simpl. lia.
  - destruct (H 1 (snd (create_order 7 100
                          (mkOrderCreate 1 [Sample.item 1 3 [1; 2]])
                          Sample.catalogue)) eq_refl)
      as (o & O & _ & _ & Exact).
    exists o. split; [exact O |].
    destruct (Exact 2) as [U _].
    + lia.
    + repeat constructor; simpl; lia.
    + reflexivity.
    + exact U.
Defined.

(** ** The order of the checks *)

Lemma check_options_spec menu opts s :
  forall seen price,
    check_options menu opts seen price s =
    match first_some (option_violation s menu) opts with
    | Some e => (inl e, s)
    | None => (inr ((seen ++ resolved_customizations s opts)%list,
                    fold_left Dec.add (option_prices s opts) price), s)
    end.
Proof.
  induction opts as [| oc opts IH]; intros seen price.
  - simpl. now rewrite app_nil_r.
  - cbn [check_options first_some]. unfold bind at 1. unfold query.
    unfold resolved_customizations, option_prices, option_violation at 1.
    cbn [flat_map].
    fold (resolved_customizations s opts). fold (option_prices s opts).
    destruct (first_option_customization s (create_option_id oc))
      as [[o c] |]; [| reflexivity].
    destruct (customization_menu_id c =? menu_id menu); cbn [negb];
      [| reflexivity].
    rewrite IH. destruct (first_some _ opts); [reflexivity |].
    rewrite <- app_assoc, fold_left_app.
    destruct (option_extra_price o); reflexivity.
Qed.

Lemma check_required_spec menu required seen s :
  check_required menu required seen s =
  match find (fun c => negb (mem (customization_id c) seen)) required with
  | Some c => (inl (InvalidArgumentError
                      (required_message (menu_id menu)
                         (customization_id c))), s)
  | None => (inr tt, s)
  end.
Proof.
  induction required as [| c required IH]; simpl; [reflexivity |].
  destruct (negb _); [reflexivity | exact IH].
Qed.

Lemma check_unique_spec menu uniques seen s :
  check_unique menu uniques seen s =
  match find (fun c => 1 <? count seen (customization_id c)) uniques with
  | Some c => (inl (InvalidArgumentError
                      (unique_message (menu_id menu)
                         (customization_id c))), s)
  | None => (inr tt, s)
  end.
Proof.
  induction uniques as [| c uniques IH]; simpl; [reflexivity |].
  destruct (1 <? _); [reflexivity | exact IH].
Qed.

Lemma check_item_spec restaurant order price s :
  check_item restaurant order price s =
  match item_violation s restaurant order with
  | Some e => (inl e, s)
  | None => (inr (fold_left Dec.add (item_prices s order) price), s)
  end.
Proof.
  unfold check_item, item_violation, item_prices.
  unfold bind at 1. unfold query at 1.
  destruct (first_menu s (create_menu_id order)) as [menu |];
    [| reflexivity].
  destruct (negb _); [reflexivity |].
  destruct (create_quantity order <? 1); [reflexivity |].
  unfold bind at 1. rewrite check_options_spec.
  destruct (first_some _ (create_options order)); [reflexivity |].
  cbn [fst snd app]. unfold bind at 1. unfold query at 1.
  unfold bind at 1. rewrite check_required_spec.
  unfold customization_violation, missing_required.
  destruct (find _ (required_menu_customizations s (menu_id menu)));
    [reflexivity |].
  unfold bind at 1. unfold query at 1.
  unfold bind at 1. rewrite check_unique_spec.
  unfold duplicated_unique.
  destruct (find _ (unique_customizations s (menu_id menu))); reflexivity.
Qed.

Lemma check_items_spec restaurant items s :
  forall price,
    check_items restaurant items price s =
    match payload_violation s restaurant items with
    | Some e => (inl e, s)
    | None =>
        (inr (fold_left Dec.add (flat_map (item_prices s) items) price), s)
    end.
Proof.
  unfold payload_violation.
  induction items as [| it items IH]; intros price; [reflexivity |].
  cbn [check_items first_some flat_map]. unfold bind.
  rewrite check_item_spec.
  destruct (item_violation s restaurant it); [reflexivity |].
  rewrite IH. destruct (first_some _ items); [reflexivity |].
  now rewrite fold_left_app.
Qed.

Lemma validation_spec payload s restaurant :
  get_restaurant (create_restaurant_id payload) s = (inr restaurant, s) ->
  validation payload s =
  match payload_violation s restaurant (create_items payload) with
  | Some e => (inl e, s)
  | None =>
      (inr (restaurant, rounded_total (payload_prices s payload)), s)
  end.
Proof.
  intros G. unfold validation. rewrite (bind_inr _ _ _ _ _ G).
  unfold bind. rewrite check_items_spec.
  destruct (payload_violation _ _ _); reflexivity.
Qed.

Lemma first_some_app {A B : Type} (f : A -> option B) pre x post :
  first_some f pre = None ->
  first_some f (pre ++ x :: post) =
  match f x with Some b => Some b | None => first_some f post end.
Proof.
  induction pre as [| a pre IH]; simpl; [reflexivity |].
  destruct (f a); [discriminate | exact IH].
Qed.

(** Once the restaurant is found, [create_order] raises exactly the first
    violation of the payload. *)
Lemma create_order_raises_first_violation customer_id now payload s
    restaurant e :
  get_restaurant (create_restaurant_id payload) s = (inr restaurant, s) ->
  create_order customer_id now payload s = (inl e, s) <->
  payload_violation s restaurant (create_items payload) = Some e.
Proof.
  intros G. pose proof (validation_spec payload s restaurant G) as V.
  split.
  - intros H. apply create_order_fails_validation in H.
    destruct H as [H _]. rewrite V in H.
    destruct (payload_violation _ _ _); congruence.
  - intros H. rewrite H in V.
    exact (validation_fails_create_order _ _ _ _ _ _ V).
Qed.

(** C9, as the code has it.  Once the restaurant is found, [create_order]
    raises exactly the first violation of the payload, where the items are
    taken in payload order and, within an item, the menu lookup comes
    first, then the restaurant of the menu, then the quantity, then the
    selected options in order, then the required and then the unique
    customizations; and it leaves the session as it was.  An item whose
    menu does not exist is reported as such, whatever its quantity. *)
Theorem fail_fast_order customer_id now payload s restaurant :
  get_restaurant (create_restaurant_id payload) s = (inr restaurant, s) ->
  (forall e,
     create_order customer_id now payload s = (inl e, s) <->
     payload_violation s restaurant (create_items payload) = Some e) /\
  (forall order rest,
     create_items payload = order :: rest ->
     first_menu s (create_menu_id order) = None ->
     create_order customer_id now payload s
     = (inl (NotFoundError "menu with id {order.menu_id} not found"), s)).
Proof.
  intros G. split.
  - intros e. now apply create_order_raises_first_violation.
  - intros order rest Items Menu.
    apply (create_order_raises_first_violation _ _ _ _ _ _ G).
    rewrite Items. unfold payload_violation. cbn [first_some].
    unfold item_violation. now rewrite Menu.
Qed.

(** A quantity of 0 of a menu that does not exist: the menu is what the
    error reports. *)
Lemma fail_fast_order_witness :
  create_order 7 100 (mkOrderCreate 1 [Sample.item 9 0 []]) Sample.catalogue
  = (inl (NotFoundError "menu with id {order.menu_id} not found"),
     Sample.catalogue).
Proof.
  apply (proj2 (fail_fast_order 7 100
                  (mkOrderCreate 1 [Sample.item 9 0 []]) Sample.catalogue
                  (mkRestaurant 1 10) eq_refl)
           (Sample.item 9 0 []) []); reflexivity.
Defined.

Lemma quantity_before_menu_counterexample : ~ quantity_before_menu_as_stated.
Proof.
  intros Claim.
  specialize (Claim 7 100 (mkOrderCreate 1 [Sample.item 9 0 []])
                Sample.catalogue (mkRestaurant 1 10) (Sample.item 9 0 []) []
                eq_refl eq_refl eq_refl).
  assert (create_quantity (Sample.item 9 0 []) < 1) as Q by (simpl; lia).
  specialize (Claim Q). vm_compute in Claim. discriminate.
Qed.

(** ** Messages *)

Lemma append_assoc (a b c : string) : (a ++ b) ++ c = a ++ (b ++ c).
Proof. induction a as [| x a IH]; simpl; [reflexivity | now rewrite IH]. Qed.

Lemma prefix_append (a b : string) : prefix a (a ++ b) = true.
Proof.
  induction a as [| x a IH]; simpl; [destruct b; reflexivity |].
  destruct (Ascii.ascii_dec x x); [exact IH | congruence].
Qed.

Lemma contains_prefix needle hay :
  prefix needle hay = true -> contains needle hay = true.
Proof. destruct hay; simpl; intros ->; reflexivity. Qed.

Lemma contains_append a needle b : contains needle (a ++ needle ++ b) = true.
Proof.
  induction a as [| x a IH]; simpl.
  - apply contains_prefix, prefix_append.
  - rewrite IH. apply orb_true_r.
Qed.

Lemma required_message_names mid cid :
  names_customization (required_message mid cid) cid = true.
Proof.
  unfold names_customization, required_message.
  replace (("menu with id " ++ show mid
            ++ " requires customization with id " ++ show cid) ++ " ")
    with (("menu with id " ++ show mid ++ " requires ")
          ++ ("customization with id " ++ show cid ++ " ") ++ "").
  - apply contains_append.
  - rewrite !append_assoc. reflexivity.
Qed.

Lemma unique_message_names mid cid :
  names_customization (unique_message mid cid) cid = true.
Proof.
  unfold names_customization, unique_message.
  replace (("menu with id " ++ show mid
            ++ " requires customization with id " ++ show cid
            ++ " to be unique") ++ " ")
    with (("menu with id " ++ show mid ++ " requires ")
          ++ ("customization with id " ++ show cid ++ " ")
          ++ "to be unique ").
  - apply contains_append.
  - rewrite !append_assoc. reflexivity.
Qed.

(** ** Required and unique customizations *)

Lemma mem_in x l : mem x l = true -> In x l.
Proof.
  unfold mem. intros H. apply existsb_exists in H.
  destruct H as (y & Hy & E). apply Z.eqb_eq in E. now subst.
Qed.

Lemma resolved_in s opts cid :
  In cid (resolved_customizations s opts) ->
  exists oc o,
    In oc opts /\ In o (options s) /\
    option_id o = create_option_id oc /\ option_customization_id o = cid.
Proof.
  unfold resolved_customizations. intros H. apply in_flat_map in H.
  destruct H as (oc & Hoc & H).
  destruct (first_option_customization s (create_option_id oc))
    as [[o c] |] eqn:F; [| contradiction].
  destruct H as [<- | []].
  unfold first_option_customization in F. apply find_some in F.
  destruct F as [Hin E]. apply in_prod_iff in Hin. simpl in E.
  apply andb_prop in E. destruct E as [E1 E2].
  exists oc, o. repeat split; try tauto; lia.
Qed.

Lemma count_resolved_twice s opts cid :
  selects_twice s opts cid -> 2 <= count (resolved_customizations s opts) cid.
Proof.
  intros (l1 & a & l2 & b & l3 & -> & (oa & ca & Fa & Ea) & (ob & cb & Fb & Eb)).
  unfold count, resolved_customizations.
  rewrite flat_map_app. cbn [flat_map]. rewrite Fa.
  rewrite flat_map_app. cbn [flat_map]. rewrite Fb.
  rewrite !count_occ_app. cbn [count_occ].
  rewrite Ea, Eb. destruct (Z.eq_dec cid cid); [lia | congruence].
Qed.

Lemma accepted_item_of_returning_call customer_id now payload s id s' order :
  create_order customer_id now payload s = (inr id, s') ->
  In order (create_items payload) ->
  exists restaurant, item_accepted s restaurant order.
Proof.
  intros H Hin. apply create_order_returns in H.
  destruct H as (r & price & V & _).
  apply validation_returns in V. destruct V as (_ & _ & _ & Acc).
  exists r. rewrite Forall_forall in Acc. auto.
Qed.

Lemma create_order_raises_or_returns customer_id now payload s :
  (exists e, create_order customer_id now payload s = (inl e, s)) \/
  (exists id s', create_order customer_id now payload s = (inr id, s')).
Proof.
  destruct (create_order customer_id now payload s) as [[e | id] s'] eqn:E.
  - left. exists e. apply create_order_fails_validation in E.
    destruct E as [_ ->]. reflexivity.
  - right. eauto.
Qed.

Lemma violation_at_customizations s payload restaurant order menu e :
  first_menu s (create_menu_id order) = Some menu ->
  reaches_customization_checks s payload restaurant order menu ->
  customization_violation s menu (create_options order) = Some e ->
  payload_violation s restaurant (create_items payload) = Some e.
Proof.
  intros Menu (_ & (pre & post & Items & Pre) & Er & Q & Opts) Cv.
  rewrite Items. unfold payload_violation in *.
  rewrite first_some_app by assumption.
  unfold item_violation.
  rewrite Menu, Er, Z.eqb_refl, (proj2 (Z.ltb_ge _ _) Q), Opts, Cv.
  reflexivity.
Qed.

Lemma required_listed s menu c :
  In c (customizations s) -> customization_menu_id c = menu_id menu ->
  customization_required c = true ->
  In c (required_menu_customizations s (menu_id menu)).
Proof.
  intros Hin Em Rq. unfold required_menu_customizations.
  apply filter_In. split; [assumption |].
  now rewrite Em, Z.eqb_refl, Rq.
Qed.

Lemma unique_listed s menu c :
  In c (customizations s) -> customization_menu_id c = menu_id menu ->
  customization_unique c = true ->
  In c (unique_customizations s (menu_id menu)).
Proof.
  intros Hin Em Un. unfold unique_customizations.
  apply filter_In. split; [assumption |].
  now rewrite Em, Z.eqb_refl, Un.
Qed.

(** C6, as the code has it.  A payload with a line item whose menu has a
    required customization none of whose options is selected is always
    turned down, with nothing stored.  The error is the first violation
    met: it is the [InvalidArgumentError] naming that customization when
    the restaurant exists, the items before and the menu, quantity and
    option checks of this item pass, and no required customization listed
    before it is missing as well. *)
Theorem missing_required_rejected customer_id now payload s order menu c :
  item_has_customization s payload order menu c ->
  customization_required c = true ->
  selects_none s (create_options order) (customization_id c) ->
  (exists e, create_order customer_id now payload s = (inl e, s)) /\
  (forall restaurant,
     reaches_customization_checks s payload restaurant order menu ->
     missing_required s menu (create_options order) = Some c ->
     create_order customer_id now payload s
     = (inl (InvalidArgumentError
               (required_message (menu_id menu) (customization_id c))), s) /\
     names_customization
       (required_message (menu_id menu) (customization_id c))
       (customization_id c) = true).
Proof.
  intros (Hin & Menu & Hc & Em) Rq None_. split.
  - destruct (create_order_raises_or_returns customer_id now payload s)
      as [Raises | (id & s' & Returns)]; [exact Raises | exfalso].
    destruct (accepted_item_of_returning_call _ _ _ _ _ _ _ Returns Hin)
      as (r & menu' & Menu' & _ & _ & Req & _).
    rewrite Menu in Menu'. inversion Menu'; subst menu'.
    pose proof (Req c (required_listed s menu c Hc Em Rq)) as Seen.
    apply mem_in, resolved_in in Seen.
    destruct Seen as (oc & o & Hoc & Ho & Eid & Ecz).
    apply (None_ o Ho Ecz). rewrite Eid. now apply in_map.
  - intros r Reach Missing. split; [| apply required_message_names].
    pose proof Reach as (G & _).
    apply (create_order_raises_first_violation _ _ _ _ _ _ G).
    apply violation_at_customizations with (order := order) (menu := menu);
      try assumption.
    unfold customization_violation. now rewrite Missing.
Qed.

(** The burger ordered without a size. *)
Lemma missing_required_rejected_witness :
  create_order 7 100 (mkOrderCreate 1 [Sample.item 1 1 [2]]) Sample.catalogue
  = (inl (InvalidArgumentError
            "menu with id 1 requires customization with id 1"),
     Sample.catalogue).
Proof.
  apply (proj2 (missing_required_rejected 7 100
                  (mkOrderCreate 1 [Sample.item 1 1 [2]]) Sample.catalogue
                  (Sample.item 1 1 [2]) Sample.burger Sample.size
                  ltac:(repeat split; simpl; auto)
                  eq_refl
                  ltac:(intros o [<- | [<- | [<- | []]]] E [S | []];
                        discriminate))
           (mkRestaurant 1 10)).
  - split; [reflexivity |].
    split; [exists [], []; split; reflexivity |].
    split; [reflexivity |]. split; [simpl; lia | reflexivity].
  - reflexivity.
Defined.

(** C6 as it stands fails when two required customizations are left out:
    the error names the first, not the second. *)
Lemma missing_required_counterexample : ~ missing_required_as_stated.
Proof.
  intros Claim.
  destruct (Claim 7 100 TwoRequired.payload TwoRequired.catalogue
              (Sample.item 1 1 []) (mkMenu 1 1 (Dec.mk 800 (-2)))
              (mkCustomization 2 1 true false)) as (msg & E & N).
  - repeat split; simpl; auto.
  - reflexivity.
  - intros o _ _ [].
  - vm_compute in E. inversion E; subst msg. vm_compute in N. discriminate.
Qed.

(** C7, as the code has it.  A payload with a line item two of whose
    selected options resolve to the same unique customization of the
    item's menu is always turned down, with nothing stored.  The error is
    the first violation met: it is the [InvalidArgumentError] naming that
    customization when the restaurant exists, the items before and the
    menu, quantity and option checks of this item pass, no required
    customization is missing, and no unique customization listed before it
    is selected twice as well. *)
Theorem duplicate_unique_rejected customer_id now payload s order menu c :
  item_has_customization s payload order menu c ->
  customization_unique c = true ->
  selects_twice s (create_options order) (customization_id c) ->
  (exists e, create_order customer_id now payload s = (inl e, s)) /\
  (forall restaurant,
     reaches_customization_checks s payload restaurant order menu ->
     missing_required s menu (create_options order) = None ->
     duplicated_unique s menu (create_options order) = Some c ->
     create_order customer_id now payload s
     = (inl (InvalidArgumentError
               (unique_message (menu_id menu) (customization_id c))), s) /\
     names_customization
       (unique_message (menu_id menu) (customization_id c))
       (customization_id c) = true).
Proof.
  intros (Hin & Menu & Hc & Em) Un Twice. split.
  - destruct (create_order_raises_or_returns customer_id now payload s)
      as [Raises | (id & s' & Returns)]; [exact Raises | exfalso].
    destruct (accepted_item_of_returning_call _ _ _ _ _ _ _ Returns Hin)
      as (r & menu' & Menu' & _ & _ & _ & Uniq).
    rewrite Menu in Menu'. inversion Menu'; subst menu'.
    pose proof (Uniq c (unique_listed s menu c Hc Em Un)) as AtMostOnce.
    apply count_resolved_twice in Twice. lia.
  - intros r Reach Required Duplicated.
    split; [| apply unique_message_names].
    pose proof Reach as (G & _).
    apply (create_order_raises_first_violation _ _ _ _ _ _ G).
    apply violation_at_customizations with (order := order) (menu := menu);
      try assumption.
    unfold customization_violation. now rewrite Required, Duplicated.
Qed.

(** The scenario of section 8: Large, and Extra Cheese twice. *)
Lemma duplicate_unique_rejected_witness :
  create_order 7 100
    (mkOrderCreate 1 [Sample.item 1 1 [1; 2; 2]]) Sample.catalogue
  = (inl (InvalidArgumentError
            "menu with id 1 requires customization with id 2 to be unique"),
     Sample.catalogue).
Proof.
  apply (proj2 (duplicate_unique_rejected 7 100
                  (mkOrderCreate 1 [Sample.item 1 1 [1; 2; 2]])
                  Sample.catalogue
                  (Sample.item 1 1 [1; 2; 2]) Sample.burger Sample.cheese
                  ltac:(repeat split; simpl; auto)
                  eq_refl
                  ltac:(exists [mkOrderOptionCreate 1],
                          (mkOrderOptionCreate 2), [],
                          (mkOrderOptionCreate 2), [];
                        repeat split;
                        exists Sample.extra_cheese, Sample.cheese;
                        split; reflexivity))
           (mkRestaurant 1 10)).
  - split; [reflexivity |].
    split; [exists [], []; split; reflexivity |].
    split; [reflexivity |]. split; [simpl; lia | reflexivity].
  - reflexivity.
  - reflexivity.
Defined.

(** C7 as it stands fails when two unique customizations are each selected
    twice: the error names the first in table order, not the second. *)
Lemma duplicate_unique_counterexample : ~ duplicate_unique_as_stated.
Proof.
  intros Claim.
  destruct (Claim 7 100 TwoUnique.payload TwoUnique.catalogue
              (Sample.item 1 1 [2; 2; 1; 1]) (mkMenu 1 1 (Dec.mk 800 (-2)))
              (mkCustomization 2 1 false true)) as (msg & E & N).
  - repeat split; simpl; auto.
  - reflexivity.
  - exists [], (mkOrderOptionCreate 2), [], (mkOrderOptionCreate 2),
      [mkOrderOptionCreate 1; mkOrderOptionCreate 1].
    repeat split;
      exists (mkOption 2 2 None), (mkCustomization 2 1 false true);
      split; reflexivity.
  - vm_compute in E. inversion E; subst msg. vm_compute in N. discriminate.
Qed.

(** * Further properties of the module *)

(** ** The rows [create_order] writes *)

Lemma fresh_id_after ids :
  fresh_id (ids ++ [fresh_id ids]) = fresh_id ids + 1.
Proof.
  unfold fresh_id.
  assert (forall l x, fold_right Z.max 0 (l ++ [x])
                      = Z.max (fold_right Z.max 0 l) (Z.max x 0)) as Last.
  { induction l as [| a l IH]; intros x; cbn [fold_right app].
    - lia.
    - rewrite IH. lia. }
  rewrite Last.
  assert (0 <= fold_right Z.max 0 ids)
    by (induction ids as [| a l IH]; cbn [fold_right]; lia).
  lia.
Qed.

Lemma add_order_options_run item_id opts s :
  add_order_options item_id opts s
  = (inr tt,
     set_order_options
       (fun l => (l ++ map (fun oc => mkOrderOption item_id
                                        (create_option_id oc)) opts)%list)
       s).
Proof.
  revert s. induction opts as [| oc opts IH]; intros s.
  - simpl. unfold ret, set_order_options. rewrite app_nil_r.
    destruct s; reflexivity.
  - cbn [add_order_options map]. unfold bind, write. rewrite IH.
    unfold set_order_options. cbn [order_options restaurants menus
      customizations options orders order_items cancelled_orders
      preparing_orders ready_orders settled_orders].
    now rewrite <- app_assoc.
Qed.

Lemma add_order_items_run oid items s :
  add_order_items oid items s
  = (inr tt,
     set_order_options
       (fun l => (l ++ option_rows
                         (fresh_id (map order_item_id (order_items s)))
                         items)%list)
       (set_order_items
          (fun l => (l ++ item_rows
                            (fresh_id (map order_item_id (order_items s)))
                            oid items)%list)
          s)).
Proof.
  revert s. induction items as [| it items IH]; intros s.
  - simpl. unfold ret, set_order_options, set_order_items. simpl.
    rewrite !app_nil_r. destruct s; reflexivity.
  - cbn [add_order_items item_rows option_rows].
    unfold bind at 1. unfold add_order_item at 1. unfold bind at 1.
    rewrite add_order_options_run, IH.
    unfold set_order_options, set_order_items.
    cbn [order_options restaurants menus customizations options orders
      order_items cancelled_orders preparing_orders ready_orders
      settled_orders].
    rewrite map_app. cbn [map order_item_id]. rewrite fresh_id_after.
    now rewrite <- !app_assoc.
Qed.

(** X1. A call of [create_order] that returns has written, besides the
    Order row, one OrderItem row per line item, in payload order and under
    consecutive new ids, each with the id of the new order and the menu
    id, quantity and extra requests of its line item, and one OrderOption
    row per selected option, under the id of its item; the rows that were
    there are kept and the catalogue is not touched. *)
Theorem create_order_writes_items customer_id now payload s id s' :
  create_order customer_id now payload s = (inr id, s') ->
  let first := fresh_id (map order_item_id (order_items s)) in
  order_items s'
  = (order_items s ++ item_rows first id (create_items payload))%list /\
  order_options s'
  = (order_options s ++ option_rows first (create_items payload))%list /\
  restaurants s' = restaurants s /\ menus s' = menus s /\
  customizations s' = customizations s /\ options s' = options s.
Proof.
  rewrite create_order_split.
  destruct (validation payload s) as [[e | [r price]] s1] eqn:V;
    [discriminate |].
  pose proof (read_only_eq _ _ _ _ (read_only_validation payload) V).
  subst s1. unfold persist, bind, add_order.
  rewrite add_order_items_run. unfold ret. intros H.
  inversion H; subst. simpl. repeat split; reflexivity.
Qed.

(** The sample order: one item row and two option rows. *)
Lemma create_order_writes_items_witness :
  order_items Sample.ordered = [mkOrderItem 1 1 1 1 ""] /\
  order_options Sample.ordered = [mkOrderOption 1 1; mkOrderOption 1 2].
Proof.
  destruct (create_order_writes_items 7 100 Sample.payload Sample.catalogue
              1 Sample.ordered eq_refl) as (I & O & _).
  split; [exact I | exact O].
Defined.

(** ** Which payloads [create_order] accepts *)

Lemma first_some_none {A B : Type} (f : A -> option B) l :
  first_some f l = None <-> forall x, In x l -> f x = None.
Proof.
  induction l as [| a l IH]; simpl.
  - split; [intros _ x [] | reflexivity].
  - destruct (f a) eqn:E.
    + split; [discriminate |]. intros H.
      rewrite (H a (or_introl eq_refl)) in E. discriminate.
    + rewrite IH. split.
      * intros H x [<- | Hx]; auto.
      * intros H x Hx. apply H. auto.
Qed.

Lemma find_none_iff {A : Type} (f : A -> bool) l :
  find f l = None <-> forall x, In x l -> f x = false.
Proof.
  split; [apply find_none |].
  induction l as [| a l IH]; simpl; [reflexivity |]. intros H.
  rewrite (H a (or_introl eq_refl)). apply IH. intros x Hx. apply H. auto.
Qed.

Lemma in_mem x l : In x l -> mem x l = true.
Proof.
  intros H. unfold mem. apply existsb_exists. exists x.
  split; [assumption | apply Z.eqb_refl].
Qed.

Lemma option_violation_none s menu oc :
  option_violation s menu oc = None <->
  exists o c,
    first_option_customization s (create_option_id oc) = Some (o, c) /\
    customization_menu_id c = menu_id menu.
Proof.
  unfold option_violation.
  destruct (first_option_customization s (create_option_id oc))
    as [[o c] |].
  - destruct (customization_menu_id c =? menu_id menu) eqn:E.
    + apply Z.eqb_eq in E. split; [eauto | reflexivity].
    + apply Z.eqb_neq in E. split; [discriminate |].
      intros (o' & c' & H & Em). inversion H; subst. contradiction.
  - split; [discriminate |]. intros (o & c & H & _). discriminate.
Qed.

Lemma customization_violation_none s menu opts :
  customization_violation s menu opts = None <->
  (forall c, In c (customizations s) ->
     customization_menu_id c = menu_id menu ->
     customization_required c = true ->
     In (customization_id c) (resolved_customizations s opts)) /\
  (forall c, In c (customizations s) ->
     customization_menu_id c = menu_id menu ->
     customization_unique c = true ->
     count (resolved_customizations s opts) (customization_id c) <= 1).
Proof.
  unfold customization_violation, missing_required, duplicated_unique.
  split.
  - destruct (find _ (required_menu_customizations s (menu_id menu)))
      eqn:R; [discriminate |].
    destruct (find _ (unique_customizations s (menu_id menu)))
      eqn:U; [discriminate |].
    intros _. split; intros c Hc Em Flag.
    + rewrite find_none_iff in R.
      specialize (R c (required_listed s menu c Hc Em Flag)).
      apply negb_false_iff in R. now apply mem_in.
    + rewrite find_none_iff in U.
      specialize (U c (unique_listed s menu c Hc Em Flag)).
      now apply Z.ltb_ge in U.
  - intros [Req Uniq].
    assert (find (fun c => negb (mem (customization_id c)
                                   (resolved_customizations s opts)))
              (required_menu_customizations s (menu_id menu)) = None) as ->.
    { apply find_none_iff. intros c Hc.
      unfold required_menu_customizations in Hc. apply filter_In in Hc.
      destruct Hc as [Hc Flags]. apply andb_prop in Flags.
      destruct Flags as [Em Flag]. apply Z.eqb_eq in Em.
      apply negb_false_iff, in_mem. auto. }
    assert (find (fun c => 1 <? count (resolved_customizations s opts)
                                 (customization_id c))
              (unique_customizations s (menu_id menu)) = None) as ->.
    { apply find_none_iff. intros c Hc.
      unfold unique_customizations in Hc. apply filter_In in Hc.
      destruct Hc as [Hc Flags]. apply andb_prop in Flags.
      destruct Flags as [Em Flag]. apply Z.eqb_eq in Em.
      apply Z.ltb_ge. auto. }
    reflexivity.
Qed.

Lemma item_violation_none s restaurant order :
  item_violation s restaurant order = None <-> valid_item s restaurant order.
Proof.
  unfold item_violation, valid_item.
  destruct (first_menu s (create_menu_id order)) as [menu |].
  - destruct (menu_restaurant_id menu =? restaurant_id restaurant) eqn:Er;
      cbn [negb].
    + apply Z.eqb_eq in Er.
      destruct (create_quantity order <? 1) eqn:Q.
      * apply Z.ltb_lt in Q. split; [discriminate |].
        intros (m & M & _ & Q' & _). lia.
      * apply Z.ltb_ge in Q.
        destruct (first_some (option_violation s menu)
                    (create_options order)) eqn:O.
        -- split; [discriminate |].
           intros (m & M & _ & _ & Opts & _). inversion M; subst m.
           assert (first_some (option_violation s menu)
                     (create_options order) = None) as N.
           { apply first_some_none. intros oc Hoc.
             apply option_violation_none. auto. }
           congruence.
        -- rewrite first_some_none in O.
           rewrite customization_violation_none. split.
           ++ intros [Req Uniq]. exists menu.
              repeat split; auto.
              intros oc Hoc. apply option_violation_none. auto.
           ++ intros (m & M & _ & _ & _ & Req & Uniq).
              inversion M; subst m. auto.
    + apply Z.eqb_neq in Er. split; [discriminate |].
      intros (m & M & Er' & _). inversion M; subst m. contradiction.
  - split; [discriminate |]. intros (m & M & _). discriminate.
Qed.

Lemma create_order_returns_iff customer_id now payload s restaurant :
  get_restaurant (create_restaurant_id payload) s = (inr restaurant, s) ->
  (exists id s', create_order customer_id now payload s = (inr id, s')) <->
  payload_violation s restaurant (create_items payload) = None.
Proof.
  intros G. split.
  - intros (id & s' & H).
    destruct (payload_violation s restaurant (create_items payload))
      as [e |] eqn:V; [| reflexivity].
    apply (create_order_raises_first_violation customer_id now _ _ _ _ G)
      in V. congruence.
  - intros V.
    destruct (create_order_raises_or_returns customer_id now payload s)
      as [(e & H) | H]; [| exact H].
    apply (create_order_raises_first_violation _ _ _ _ _ _ G) in H.
    congruence.
Qed.

(** X2. Once the restaurant is found, [create_order] returns exactly
    when every line item is valid: its menu exists and is of the order's
    restaurant, its quantity is at least 1, every selected option resolves
    to a customization of that menu, every required customization of the
    menu is among those, and no unique customization of the menu is among
    them twice. *)
Theorem create_order_accepts_valid customer_id now payload s restaurant :
  get_restaurant (create_restaurant_id payload) s = (inr restaurant, s) ->
  (exists id s', create_order customer_id now payload s = (inr id, s')) <->
  Forall (valid_item s restaurant) (create_items payload).
Proof.
  intros G. rewrite (create_order_returns_iff _ _ _ _ _ G).
  unfold payload_violation. rewrite first_some_none, Forall_forall.
  split; intros H x Hx; apply item_violation_none; auto.
Qed.

(** The sample payload was accepted, so its item is valid. *)
Lemma create_order_accepts_valid_witness :
  Forall (valid_item Sample.catalogue (mkRestaurant 1 10))
    (create_items Sample.payload).
Proof.
  apply (proj1 (create_order_accepts_valid 7 100 Sample.payload
                  Sample.catalogue (mkRestaurant 1 10) eq_refl)).
  exists 1, Sample.ordered. reflexivity.
Defined.

(** X4. A payload with a line item whose menu belongs to another
    restaurant than the order's is always turned down, with nothing
    stored; when no item before it has a violation, the error is the
    [InvalidArgumentError] that names the menu and the restaurant,
    whatever the quantity and the options of the item. *)
Theorem menu_of_other_restaurant_rejected customer_id now payload s
    restaurant order menu :
  get_restaurant (create_restaurant_id payload) s = (inr restaurant, s) ->
  In order (create_items payload) ->
  first_menu s (create_menu_id order) = Some menu ->
  menu_restaurant_id menu <> restaurant_id restaurant ->
  (exists e, create_order customer_id now payload s = (inl e, s)) /\
  (forall pre post,
     create_items payload = (pre ++ order :: post)%list ->
     payload_violation s restaurant pre = None ->
     create_order customer_id now payload s
     = (inl (InvalidArgumentError
               ("menu with id " ++ show (create_menu_id order)
                ++ " is not in restaurant with id "
                ++ show (restaurant_id restaurant))), s)).
Proof.
  intros G Hin Menu Other.
  assert (item_violation s restaurant order
          = Some (InvalidArgumentError
                    ("menu with id " ++ show (create_menu_id order)
                     ++ " is not in restaurant with id "
                     ++ show (restaurant_id restaurant)))) as V.
  { unfold item_violation. rewrite Menu.
    now rewrite (proj2 (Z.eqb_neq _ _) Other). }
  split.
  - destruct (create_order_raises_or_returns customer_id now payload s)
      as [Raises | Returns]; [exact Raises | exfalso].
    apply (create_order_returns_iff _ _ _ _ _ G) in Returns.
    unfold payload_violation in Returns.
    rewrite first_some_none in Returns.
    rewrite (Returns order Hin) in V. discriminate.
  - intros pre post Items Pre.
    apply (create_order_raises_first_violation _ _ _ _ _ _ G).
    rewrite Items. unfold payload_violation in *.
    rewrite first_some_app by assumption. now rewrite V.
Qed.

Lemma menu_of_other_restaurant_rejected_witness :
  create_order 7 100 (mkOrderCreate 2 [Sample.item 1 0 [9]])
    (mkSession [mkRestaurant 1 10; mkRestaurant 2 11] [Sample.burger]
       [Sample.size] [Sample.large] [] [] [] [] [] [] [])
  = (inl (InvalidArgumentError
            "menu with id 1 is not in restaurant with id 2"),
     mkSession [mkRestaurant 1 10; mkRestaurant 2 11] [Sample.burger]
       [Sample.size] [Sample.large] [] [] [] [] [] [] []).
Proof.
  apply (proj2 (menu_of_other_restaurant_rejected 7 100
                  (mkOrderCreate 2 [Sample.item 1 0 [9]])
                  (mkSession [mkRestaurant 1 10; mkRestaurant 2 11]
                     [Sample.burger] [Sample.size] [Sample.large]
                     [] [] [] [] [] [] [])
                  (mkRestaurant 2 11) (Sample.item 1 0 [9]) Sample.burger
                  eq_refl (or_introl eq_refl) eq_refl
                  ltac:(simpl; lia))
           [] []); reflexivity.
Defined.

(** ** Reading an order that was just created *)

Lemma find_app_split {A : Type} (f : A -> bool) l l' :
  find f (l ++ l') =
  match find f l with Some x => Some x | None => find f l' end.
Proof.
  induction l as [| a l IH]; simpl; [reflexivity |].
  destruct (f a); [reflexivity | exact IH].
Qed.

Lemma first_order_unknown s oid :
  ~ In oid (map order_id (orders s)) -> first_order s oid = None.
Proof.
  intros New. unfold first_order. apply find_none_iff.
  intros o Ho. apply Z.eqb_neq. intros E. apply New. rewrite <- E.
  now apply in_map.
Qed.

(** X5. The id [create_order] returns is new, and the order is there to be
    read at once: it is ORDERED, of the customer and stamped with the time
    of the call; [get_order_status] gives the customer the ORDERED payload
    and turns any other customer down with [UnauthorizedError]; and what
    is read under any other id is what was read before. *)
Theorem create_order_then_read customer_id now payload s id s' :
  create_order customer_id now payload s = (inr id, s') ->
  ~ In id (map order_id (orders s)) /\
  (exists o,
     first_order s' id = Some o /\ order_status o = ORDERED /\
     order_customer_id o = customer_id /\ order_ordered_at o = now) /\
  get_order_status customer_id CUSTOMER id s' = (inr OrderedOrderSchema, s') /\
  (forall other,
     other <> customer_id ->
     get_order_status other CUSTOMER id s'
     = (inl (UnauthorizedError "customer does not own the order"), s')) /\
  (forall oid, oid <> id -> first_order s' oid = first_order s oid).
Proof.
  intros H. apply create_order_returns in H.
  destruct H as (r & price & _ & Id & O & _).
  assert (~ In id (map order_id (orders s))) as New
    by (rewrite Id; apply fresh_id_new).
  assert (first_order s' id
          = Some (mkOrder id customer_id (restaurant_id r) now price
                    ORDERED)) as F.
  { unfold first_order. rewrite O, find_app_split.
    fold (first_order s id). rewrite (first_order_unknown s id New).
    simpl. now rewrite Z.eqb_refl. }
  split; [exact New |]. split; [eexists; split; [exact F | auto] |].
  split; [| split].
  - unfold get_order_status, get_order_with_validation, bind, query.
    rewrite F. simpl. now rewrite Z.eqb_refl.
  - intros other Ne.
    unfold get_order_status, get_order_with_validation, bind, query.
    rewrite F. simpl.
    assert ((customer_id =? other) = false) as ->
      by (apply Z.eqb_neq; congruence).
    reflexivity.
  - intros oid Ne. unfold first_order. rewrite O, find_app_split.
    destruct (find _ (orders s)); [reflexivity |]. simpl.
    assert ((id =? oid) = false) as -> by (apply Z.eqb_neq; congruence).
    reflexivity.
Qed.

Lemma create_order_then_read_witness :
  get_order_status 7 CUSTOMER 1 Sample.ordered
  = (inr OrderedOrderSchema, Sample.ordered).
Proof.
  destruct (create_order_then_read 7 100 Sample.payload Sample.catalogue 1
              Sample.ordered eq_refl) as (_ & _ & H & _).
  exact H.
Defined.

(** ** The whole transition table *)

(** X6. For an actor who passes the ownership checks,
    [update_order_status] returns exactly on the six rows of the table
    that commit (customer: cancel when ORDERED, settle when READY;
    merchant: mark preparing when ORDERED, mark ready when PREPARING,
    cancel when ORDERED or PREPARING), and the order then carries the
    requested status.  On every other row it raises
    [InvalidArgumentError], with a reason that depends on the role and
    the kind of request only, and leaves the session as it was. *)
Theorem transition_table user_id role oid status now s o :
  authorized s user_id role oid o ->
  (permitted role (order_status o) status = true ->
     exists s',
       update_order_status user_id role oid status now s = (inr tt, s') /\
       status_of s' oid = Some (target_status status)) /\
  (permitted role (order_status o) status = false ->
     update_order_status user_id role oid status now s
     = (inl (InvalidArgumentError (rejection_reason role status)), s)).
Proof.
  intros A. split; intros P.
  - destruct (update_accepted user_id role oid status now s o A)
      as (s' & E & F).
    + unfold transition, commit_cancelled, commit_settled,
        commit_preparing, commit_ready.
      destruct role, (order_status o), status; try discriminate;
        eexists; (split; [reflexivity | reflexivity]).
    + exists s'. split; [exact E |]. unfold status_of. now rewrite F.
  - apply update_rejected with (o := o); [exact A |].
    unfold transition.
    destruct role, (order_status o), status; try discriminate; reflexivity.
Qed.

(** The merchant marks the order being prepared as ready; the customer
    may not settle it yet. *)
Lemma transition_table_witness :
  (exists s',
     update_order_status 10 MERCHANT 1 ReadyOrderUpdate 250 Sample.preparing
     = (inr tt, s') /\ status_of s' 1 = Some READY) /\
  update_order_status 7 CUSTOMER 1 SettledOrderUpdate 250 Sample.preparing
  = (inl (InvalidArgumentError "order can only be settled when it's ready"),
     Sample.preparing).
Proof.
  split.
  - apply (transition_table 10 MERCHANT 1 ReadyOrderUpdate 250
             Sample.preparing
             (mkOrder 1 7 1 100 (Dec.mk 1025 (-2)) PREPARING));
      reflexivity.
  - apply (transition_table 7 CUSTOMER 1 SettledOrderUpdate 250
             Sample.preparing
             (mkOrder 1 7 1 100 (Dec.mk 1025 (-2)) PREPARING));
      reflexivity.
Defined.

(** ** Existence, then ownership, then legality *)

(** X7. [get_order_status] and [update_order_status] check existence
    first and ownership second.  Under an id that no order has, both raise
    [NotFoundError], whatever the role.  For an order of another customer,
    or of a restaurant the merchant has no row for, both raise
    [UnauthorizedError], whatever the status of the order and whatever the
    request.  Nothing is written in either case. *)
Theorem access_checked_first user_id oid s :
  (first_order s oid = None ->
     forall role,
       get_order_status user_id role oid s
       = (inl (NotFoundError "order with id {order_id} not found"), s) /\
       forall status now,
         update_order_status user_id role oid status now s
         = (inl (NotFoundError "order with id {order_id} not found"), s)) /\
  (forall o,
     first_order s oid = Some o -> order_customer_id o <> user_id ->
     get_order_status user_id CUSTOMER oid s
     = (inl (UnauthorizedError "customer does not own the order"), s) /\
     forall status now,
       update_order_status user_id CUSTOMER oid status now s
       = (inl (UnauthorizedError "customer does not own the order"), s)) /\
  (forall o,
     first_order s oid = Some o ->
     first_owned_restaurant s user_id (order_restaurant_id o) = None ->
     get_order_status user_id MERCHANT oid s
     = (inl (UnauthorizedError "merchant does not own the order"), s) /\
     forall status now,
       update_order_status user_id MERCHANT oid status now s
       = (inl (UnauthorizedError "merchant does not own the order"), s)).
Proof.
  unfold get_order_status, update_order_status, get_order_with_validation,
    bind, query.
  split; [| split].
  - intros ->. intros role. split; reflexivity.
  - intros o -> Ne.
    rewrite (proj2 (Z.eqb_neq _ _) Ne). split; reflexivity.
  - intros o -> ->. split; reflexivity.
Qed.

(** Customer 8 asks about the order of customer 7. *)
Lemma access_checked_first_witness :
  update_order_status 8 CUSTOMER 1 (CancelledOrderUpdate "mine?") 300
    Sample.ordered
  = (inl (UnauthorizedError "customer does not own the order"),
     Sample.ordered).
Proof.
  destruct (access_checked_first 8 1 Sample.ordered) as (_ & H & _).
  apply (H (mkOrder 1 7 1 100 (Dec.mk 1025 (-2)) ORDERED) eq_refl).
  simpl. lia.
Defined.

(** ** What a status update leaves alone *)

Lemma same_but_status_refl o : same_but_status o o.
Proof. repeat split. Qed.

Lemma same_but_status_assign oid st l :
  Forall2 same_but_status l (assign_status oid st l).
Proof.
  induction l as [| x l IH]; simpl; [constructor |].
  destruct (order_id x =? oid).
  - constructor; [repeat split |].
    clear IH. induction l; constructor; auto using same_but_status_refl.
  - constructor; [apply same_but_status_refl | exact IH].
Qed.

Lemma same_but_status_all l : Forall2 same_but_status l l.
Proof. induction l; constructor; auto using same_but_status_refl. Qed.

(** X8. A call of [update_order_status], returning or raising, leaves the
    catalogue, the OrderItem rows and the OrderOption rows as they were;
    it adds and removes no order, and changes of the orders nothing but a
    status: id, customer, restaurant, time of ordering and [price_paid]
    stay; and what is read under any other id than the one of the call is
    what was read before. *)
Theorem update_order_status_frame user_id role oid status now s r s' :
  update_order_status user_id role oid status now s = (r, s') ->
  restaurants s' = restaurants s /\ menus s' = menus s /\
  customizations s' = customizations s /\ options s' = options s /\
  order_items s' = order_items s /\ order_options s' = order_options s /\
  Forall2 same_but_status (orders s) (orders s') /\
  (forall other, other <> oid -> first_order s' other = first_order s other).
Proof.
  intros H. destruct r as [e | []].
  - apply update_order_status_fails in H. subst s'.
    repeat split; auto. apply same_but_status_all.
  - apply update_order_status_returns in H.
    destruct H as (o & _ & _ & _ & _ & ->).
    unfold fire.
    assert (orders (set_orders
                      (assign_status
                         (satellite_order_id
                            (written_satellite role oid status now))
                         (satellite_status
                            (written_satellite role oid status now)))
                      (add_satellite
                         (written_satellite role oid status now) s))
            = assign_status oid (target_status status) (orders s)) as O
      by (destruct status; reflexivity).
    repeat split; try (destruct status; reflexivity).
    + rewrite O. apply same_but_status_assign.
    + intros other Ne. unfold first_order. rewrite O.
      apply find_assign_status_other. congruence.
Qed.

(** Marking the sample order as being prepared leaves its price at
    10.25 and its items alone. *)
Lemma update_order_status_frame_witness :
  order_items Sample.preparing = order_items Sample.ordered /\
  Forall2 same_but_status (orders Sample.ordered) (orders Sample.preparing).
Proof.
  destruct (update_order_status_frame 10 MERCHANT 1 PreparingOrderUpdate 200
              Sample.ordered (inr tt) Sample.preparing eq_refl)
    as (_ & _ & _ & _ & I & _ & O & _).
  split; [exact I | exact O].
Defined.

(** ** Orders over time *)

Lemma leads_to_refl st : leads_to st st = true.
Proof. destruct st; reflexivity. Qed.

Lemma leads_to_trans a b c :
  leads_to a b = true -> leads_to b c = true -> leads_to a c = true.
Proof. destruct a, b, c; simpl; congruence. Qed.

Lemma edge_leads_to a b : edge a b = true -> leads_to a b = true.
Proof. destruct a, b; simpl; congruence. Qed.

(** [leads_to] is the reflexive and transitive closure of [edge]. *)
Lemma leads_to_paths a b :
  leads_to a b = true <->
  Relations.Relation_Operators.clos_refl_trans OrderStatusFlag
    (fun x y => edge x y = true) a b.
Proof.
  split.
  - assert (forall x y, edge x y = true ->
              Relations.Relation_Operators.clos_refl_trans OrderStatusFlag
                (fun x y => edge x y = true) x y) as One
      by (intros; now apply Relations.Relation_Operators.rt_step).
    pose proof (One ORDERED PREPARING eq_refl) as OP.
    pose proof (One ORDERED CANCELLED eq_refl) as OC.
    pose proof (One PREPARING READY eq_refl) as PR.
    pose proof (One PREPARING CANCELLED eq_refl) as PC.
    pose proof (One READY SETTLED eq_refl) as RS.
    destruct a, b; simpl; intros H; try discriminate;
      try apply Relations.Relation_Operators.rt_refl;
      eauto using Relations.Relation_Operators.rt_trans.
  - induction 1 as [x y E | x | x y z _ IH1 _ IH2].
    + now apply edge_leads_to.
    + apply leads_to_refl.
    + now apply leads_to_trans with (b := y).
Qed.

Lemma same_but_status_trans a b c :
  same_but_status a b -> same_but_status b c -> same_but_status a c.
Proof.
  unfold same_but_status.
  intros (A1 & A2 & A3 & A4 & A5) (B1 & B2 & B3 & B4 & B5).
  repeat split; congruence.
Qed.

Lemma step_keeps_order s s' oid o :
  step s s' -> first_order s oid = Some o ->
  exists o',
    first_order s' oid = Some o' /\ same_but_status o o' /\
    leads_to (order_status o) (order_status o') = true.
Proof.
  assert (forall s0, first_order s0 oid = Some o ->
            exists o', first_order s0 oid = Some o' /\
                       same_but_status o o' /\
                       leads_to (order_status o) (order_status o') = true)
    as Same.
  { intros s0 F. exists o.
    auto using same_but_status_refl, leads_to_refl. }
  destruct 1 as [s customer_id now payload | s user_id role oid' status now
                | s s' (O & _)]; intros F.
  - destruct (create_order customer_id now payload s) as [[e | id] s'] eqn:E;
      simpl.
    + apply create_order_fails_validation in E. destruct E as [_ ->]. auto.
    + apply create_order_returns in E.
      destruct E as (r & price & _ & _ & O & _). apply Same.
      unfold first_order in *. rewrite O.
      now apply find_app_found.
  - destruct (update_order_status user_id role oid' status now s)
      as [[e | []] s'] eqn:E; simpl.
    + apply update_order_status_fails in E. subst. auto.
    + apply update_order_status_returns in E.
      destruct E as (o2 & A & Hid & Hst & Ed & ->).
      apply authorized_first_order in A. destruct A as [F2 _].
      assert (orders (fire (written_satellite role oid' status now) s)
              = assign_status oid' (target_status status) (orders s)) as O
        by (destruct status; reflexivity).
      destruct (Z.eq_dec oid' oid) as [-> | Ne].
      * rewrite F in F2. inversion F2; subst o2.
        exists (with_status o (target_status status)).
        split; [| split].
        -- unfold first_order in *. rewrite O.
           now apply find_assign_status.
        -- repeat split.
        -- now apply edge_leads_to.
      * apply Same. unfold first_order in *. rewrite O.
        now rewrite find_assign_status_other.
  - apply Same. unfold first_order in *. now rewrite O.
Qed.

Lemma evolves_keeps_order s s' oid o :
  evolves s s' -> first_order s oid = Some o ->
  exists o',
    first_order s' oid = Some o' /\ same_but_status o o' /\
    leads_to (order_status o) (order_status o') = true.
Proof.
  induction 1 as [| s1 s2 _ IH St]; intros F.
  - exists o. auto using same_but_status_refl, leads_to_refl.
  - destruct (IH F) as (o1 & F1 & S1 & L1).
    destruct (step_keeps_order s1 s2 oid o1 St F1) as (o2 & F2 & S2 & L2).
    exists o2. split; [exact F2 |]. split.
    + now apply same_but_status_trans with (b := o1).
    + now apply leads_to_trans with (b := order_status o1).
Qed.

(** X9. An order is never lost and its [price_paid] never changes:
    whatever calls of [create_order] and [update_order_status] follow, the
    order read under its id has the id, customer, restaurant, time of
    ordering and [price_paid] it had. *)
Theorem price_paid_is_immutable s s' oid o :
  evolves s s' ->
  first_order s oid = Some o ->
  exists o',
    first_order s' oid = Some o' /\ same_but_status o o' /\
    order_price_paid o' = order_price_paid o.
Proof.
  intros Ev F.
  destruct (evolves_keeps_order s s' oid o Ev F) as (o' & F' & S & _).
  exists o'. split; [exact F' |]. split; [exact S |].
  now destruct S as (_ & _ & _ & _ & P).
Qed.

Lemma evolves_sample_preparing : evolves Sample.ordered Sample.preparing.
Proof.
  unfold Sample.preparing.
  eapply evolves_step; [apply evolves_refl | apply step_update].
Qed.

Lemma price_paid_is_immutable_witness :
  exists o',
    first_order Sample.preparing 1 = Some o' /\
    order_price_paid o' = Dec.mk 1025 (-2).
Proof.
  destruct (price_paid_is_immutable Sample.ordered Sample.preparing 1
              (mkOrder 1 7 1 100 (Dec.mk 1025 (-2)) ORDERED)
              evolves_sample_preparing eq_refl) as (o' & F & _ & P).
  exists o'. split; [exact F | exact P].
Defined.

(** X10. The status of an order only moves forward along the edges of the
    machine, whatever calls follow: from ORDERED to PREPARING or
    CANCELLED, from PREPARING to READY or CANCELLED, from READY to
    SETTLED.  So an order is never ORDERED again once it has left that
    status, and an order that was READY is never cancelled. *)
Theorem status_moves_forward s s' oid st :
  evolves s s' ->
  status_of s oid = Some st ->
  exists st', status_of s' oid = Some st' /\ leads_to st st' = true.
Proof.
  unfold status_of. intros Ev H.
  destruct (first_order s oid) as [o |] eqn:F; [| discriminate].
  inversion H; subst st.
  destruct (evolves_keeps_order s s' oid o Ev F) as (o' & F' & _ & L).
  exists (order_status o'). rewrite F'. auto.
Qed.

Lemma status_moves_forward_witness :
  exists st', status_of Sample.preparing 1 = Some st' /\
              leads_to ORDERED st' = true.
Proof.
  apply (status_moves_forward Sample.ordered Sample.preparing 1 ORDERED
           evolves_sample_preparing eq_refl).
Defined.

(** X11. On every reachable session the order ids are unique, every
    satellite row is of a stored order, and the satellite rows of an order
    are the history of its path: none for ORDERED; one PreparingOrder for
    PREPARING; that and one ReadyOrder for READY; those and one
    SettledOrder for SETTLED; one CancelledOrder, at most one
    PreparingOrder and no ReadyOrder or SettledOrder for CANCELLED. *)
Theorem reachable_history s :
  reachable s ->
  NoDup (map order_id (orders s)) /\
  (forall o, In o (orders s) -> history_matches_status s o) /\
  (forall c, In c (cancelled_orders s) ->
     In (cancelled_order_id c) (map order_id (orders s))) /\
  (forall p, In p (preparing_orders s) ->
     In (preparing_order_id p) (map order_id (orders s))) /\
  (forall r, In r (ready_orders s) ->
     In (ready_order_id r) (map order_id (orders s))) /\
  (forall x, In x (settled_orders s) ->
     In (settled_order_id x) (map order_id (orders s))).
Proof.
  intros R. destruct (reachable_well_formed s R). auto 10.
Qed.

Lemma reachable_history_witness :
  history_matches_status Sample.preparing
    (mkOrder 1 7 1 100 (Dec.mk 1025 (-2)) PREPARING).
Proof.
  destruct (reachable_history Sample.preparing reachable_sample_preparing)
    as (_ & H & _).
  apply H. left. reflexivity.
Defined.

(** ** Nothing is taken back *)

Lemma extends_refl {A : Type} (l : list A) : extends l l.
Proof. exists []. now rewrite app_nil_r. Qed.

Lemma extends_trans {A : Type} (l1 l2 l3 : list A) :
  extends l1 l2 -> extends l2 l3 -> extends l1 l3.
Proof.
  intros [a ->] [b ->]. exists (a ++ b)%list. now rewrite app_assoc.
Qed.

Lemma extends_one {A : Type} (l : list A) x : extends l (l ++ [x]).
Proof. now exists [x]. Qed.

Lemma status_tables_extend_refl s : status_tables_extend s s.
Proof. repeat split; apply extends_refl. Qed.

Lemma status_tables_extend_trans s1 s2 s3 :
  status_tables_extend s1 s2 -> status_tables_extend s2 s3 ->
  status_tables_extend s1 s3.
Proof.
  intros (A1 & A2 & A3 & A4 & A5) (B1 & B2 & B3 & B4 & B5).
  repeat split; eapply extends_trans; eauto.
Qed.

Lemma step_extends s s' : step s s' -> status_tables_extend s s'.
Proof.
  destruct 1 as [s customer_id now payload | s user_id role oid status now
                | s s' (O & C & P & R & X)].
  - destruct (create_order customer_id now payload s) as [[e | id] s'] eqn:E;
      simpl.
    + apply create_order_fails_validation in E. destruct E as [_ ->].
      apply status_tables_extend_refl.
    + apply create_order_returns in E.
      destruct E as (r & price & _ & _ & O & C & P & R & X).
      unfold status_tables_extend. rewrite O, C, P, R, X, map_app.
      repeat split; try apply extends_refl. apply extends_one.
  - destruct (update_order_status user_id role oid status now s)
      as [[e | []] s'] eqn:E; simpl.
    + apply update_order_status_fails in E. subst.
      apply status_tables_extend_refl.
    + apply update_order_status_returns in E.
      destruct E as (o & _ & _ & _ & _ & ->).
      unfold status_tables_extend.
      replace (map order_id
                 (orders (fire (written_satellite role oid status now) s)))
        with (map order_id (orders s))
        by (destruct status; simpl; now rewrite map_order_id_assign_status).
      destruct status; simpl;
        repeat split; try apply extends_refl; apply extends_one.
  - unfold status_tables_extend. rewrite O, C, P, R, X.
    repeat split; apply extends_refl.
Qed.

(** X12. The order table and the satellite tables only grow: whatever
    calls follow, the order ids and the rows of CancelledOrder,
    PreparingOrder, ReadyOrder and SettledOrder that were there are still
    there, unchanged and in the same places, with the new ones after
    them. *)
Theorem status_tables_only_grow s s' :
  evolves s s' -> status_tables_extend s s'.
Proof.
  induction 1 as [| s1 s2 _ IH St].
  - apply status_tables_extend_refl.
  - apply status_tables_extend_trans with (s2 := s1); [exact IH |].
    now apply step_extends.
Qed.

Lemma status_tables_only_grow_witness :
  extends (preparing_orders Sample.ordered)
    (preparing_orders Sample.preparing).
Proof.
  destruct (status_tables_only_grow Sample.ordered Sample.preparing
              evolves_sample_preparing) as (_ & _ & P & _).
  exact P.
Defined.

(** ** Listing orders *)

Lemma status_eqb_eq a b : status_eqb a b = true <-> a = b.
Proof. destruct a, b; simpl; split; congruence. Qed.

Lemma joins_owned_iff s user_id o :
  joins_owned_restaurant s user_id o = true <->
  first_owned_restaurant s user_id (order_restaurant_id o) <> None.
Proof.
  unfold joins_owned_restaurant, first_owned_restaurant.
  induction (restaurants s) as [| r l IH]; simpl.
  - split; [discriminate | congruence].
  - rewrite (Z.eqb_sym (order_restaurant_id o) (restaurant_id r)).
    destruct ((restaurant_merchant_id r =? user_id)
              && (restaurant_id r =? order_restaurant_id o)); simpl.
    + split; [discriminate | reflexivity].
    + exact IH.
Qed.

Lemma first_order_of_member s o :
  NoDup (map order_id (orders s)) -> In o (orders s) ->
  first_order s (order_id o) = Some o.
Proof.
  intros ND Hin. unfold first_order.
  destruct (find (fun x => order_id x =? order_id o) (orders s))
    as [x |] eqn:F.
  - apply find_some in F. destruct F as [Hx E]. apply Z.eqb_eq in E.
    f_equal. now apply (same_id_same_order (orders s)).
  - rewrite find_none_iff in F. specialize (F o Hin).
    rewrite Z.eqb_refl in F. discriminate.
Qed.

Lemma authorized_iff s user_id role oid o :
  authorized s user_id role oid o <->
  first_order s oid = Some o /\
  match role with
  | CUSTOMER => order_customer_id o = user_id
  | MERCHANT => joins_owned_restaurant s user_id o = true
  end.
Proof.
  unfold authorized, get_order_with_validation, bind, query. split.
  - destruct (first_order s oid) as [o1 |]; [| discriminate].
    destruct role.
    + destruct (order_customer_id o1 =? user_id) eqn:E; simpl;
        [| discriminate].
      intros H. inversion H; subst. apply Z.eqb_eq in E. auto.
    + destruct (first_owned_restaurant s user_id (order_restaurant_id o1))
        eqn:R; [| discriminate].
      intros H. inversion H; subst. split; [reflexivity |].
      apply joins_owned_iff. congruence.
  - intros [-> Own]. destruct role.
    + subst user_id. now rewrite Z.eqb_refl.
    + apply joins_owned_iff in Own.
      destruct (first_owned_restaurant s user_id (order_restaurant_id o));
        [reflexivity | contradiction].
Qed.

Lemma listed_iff s user_id role rf sf o :
  In o (match fst (get_orders user_id role rf sf s) with
        | inr l => l
        | inl _ => []
        end) <->
  In o (orders s) /\
  match role with
  | CUSTOMER => order_customer_id o = user_id
  | MERCHANT => joins_owned_restaurant s user_id o = true
  end /\
  status_predicate sf o = true /\ restaurant_predicate rf o = true.
Proof.
  destruct role; simpl; rewrite filter_In, !andb_true_iff, ?Z.eqb_eq;
    tauto.
Qed.

Lemma get_orders_returns user_id role rf sf s :
  exists l, get_orders user_id role rf sf s = (inr l, s).
Proof. destruct role; eexists; reflexivity. Qed.

(** X13. Listing and access agree.  Where the order ids are unique, every
    order that [get_orders] lists for an actor, under any filters, is an
    order the actor passes the ownership checks for, so that
    [get_order_status] and [update_order_status] will not answer
    [UnauthorizedError] or [NotFoundError] for it; and every order an
    actor passes the checks for is in the actor's unfiltered listing. *)
Theorem listing_agrees_with_access s user_id role :
  NoDup (map order_id (orders s)) ->
  (forall rf sf l o,
     get_orders user_id role rf sf s = (inr l, s) -> In o l ->
     authorized s user_id role (order_id o) o) /\
  (forall oid o l,
     authorized s user_id role oid o ->
     get_orders user_id role None None s = (inr l, s) -> In o l).
Proof.
  intros ND. split.
  - intros rf sf l o G Hin.
    pose proof (listed_iff s user_id role rf sf o) as L.
    rewrite G in L. apply L in Hin. destruct Hin as (Hin & Own & _).
    apply authorized_iff. split; [now apply first_order_of_member | exact Own].
  - intros oid o l A G. apply authorized_iff in A. destruct A as [F Own].
    pose proof (listed_iff s user_id role None None o) as L.
    rewrite G in L. apply L.
    destruct (first_order_id _ _ _ F) as [Hin _]. auto.
Qed.

Lemma listing_agrees_with_access_witness :
  authorized Sample.ordered 10 MERCHANT 1
    (mkOrder 1 7 1 100 (Dec.mk 1025 (-2)) ORDERED).
Proof.
  apply (proj1 (listing_agrees_with_access Sample.ordered 10 MERCHANT
                  ltac:(repeat constructor; simpl; tauto))
           (Some 1) (Some ORDERED)
           [mkOrder 1 7 1 100 (Dec.mk 1025 (-2)) ORDERED]
           (mkOrder 1 7 1 100 (Dec.mk 1025 (-2)) ORDERED)).
  - reflexivity.
  - left. reflexivity.
Defined.

Lemma create_order_keeps_restaurants customer_id now payload s r s' :
  create_order customer_id now payload s = (r, s') ->
  restaurants s' = restaurants s.
Proof.
  rewrite create_order_split.
  destruct (validation payload s) as [[e | [rest price]] s1] eqn:V;
    pose proof (read_only_eq _ _ _ _ (read_only_validation payload) V);
    subst s1.
  - intros H. now inversion H.
  - unfold persist, bind, add_order. rewrite add_order_items_run.
    intros H. inversion H. reflexivity.
Qed.

(** X14. An order that [create_order] has stored is listed at once: it is
    in the customer's listing, also under the filters for its restaurant
    and for the status ORDERED.  And it disturbs no listing: for every
    actor and all filters, what was listed before the call is listed
    after it, and nothing is listed after it that was not listed before,
    except the new order. *)
Theorem create_order_then_listed customer_id now payload s id s' :
  create_order customer_id now payload s = (inr id, s') ->
  exists o,
    first_order s' id = Some o /\
    (forall l,
       get_orders customer_id CUSTOMER (Some (order_restaurant_id o))
         (Some ORDERED) s' = (inr l, s') -> In o l) /\
    (forall user_id role rf sf l l',
       get_orders user_id role rf sf s = (inr l, s) ->
       get_orders user_id role rf sf s' = (inr l', s') ->
       (forall x, In x l -> In x l') /\
       (forall x, In x l' -> In x l \/ x = o)).
Proof.
  intros H. pose proof (create_order_keeps_restaurants _ _ _ _ _ _ H) as Rs.
  apply create_order_returns in H.
  destruct H as (r & price & _ & Id & O & _).
  set (o := mkOrder id customer_id (restaurant_id r) now price ORDERED) in *.
  assert (first_order s' id = Some o) as F.
  { unfold first_order. rewrite O, find_app_split.
    fold (first_order s id).
    rewrite (first_order_unknown s id)
      by (rewrite Id; apply fresh_id_new).
    simpl. now rewrite Z.eqb_refl. }
  exists o. split; [exact F |]. split.
  - intros l G.
    pose proof (listed_iff s' customer_id CUSTOMER
                  (Some (order_restaurant_id o)) (Some ORDERED) o) as L.
    rewrite G in L. apply L.
    destruct (first_order_id _ _ _ F) as [Hin _].
    repeat split; auto. simpl. apply Z.eqb_refl.
  - intros user_id role rf sf l l' G G'.
    destruct role; simpl in G, G'; unfold query in G, G';
      inversion G; inversion G'; subst l l'; clear G G';
      unfold joins_owned_restaurant; rewrite O, ?Rs, filter_app; simpl;
      match goal with
      | |- context [if ?b then _ else _] => destruct b
      end; rewrite ?app_nil_r; split; intros x Hx;
      rewrite ?in_app_iff in *; simpl in *; intuition congruence.
Qed.

Lemma create_order_then_listed_witness :
  exists o,
    first_order Sample.ordered 1 = Some o /\
    forall l,
      get_orders 7 CUSTOMER (Some (order_restaurant_id o)) (Some ORDERED)
        Sample.ordered = (inr l, Sample.ordered) -> In o l.
Proof.
  destruct (create_order_then_listed 7 100 Sample.payload Sample.catalogue 1
              Sample.ordered eq_refl) as (o & F & L & _).
  exists o. split; [exact F | exact L].
Defined.

(** X15. Where the order ids are unique, a status update that has
    returned shows in the listings: everyone who passes the ownership
    checks for the order finds it listed under the filter for its new
    status, and under the filter for any other status no order with its
    id is listed any more. *)
Theorem update_then_listed user_id role oid status now s s'
    reader reader_role o' :
  NoDup (map order_id (orders s)) ->
  update_order_status user_id role oid status now s = (inr tt, s') ->
  authorized s' reader reader_role oid o' ->
  (forall l,
     get_orders reader reader_role None (Some (target_status status)) s'
     = (inr l, s') -> In o' l) /\
  (forall st rf l,
     st <> target_status status ->
     get_orders reader reader_role rf (Some st) s' = (inr l, s') ->
     forall x, In x l -> order_id x <> oid).
Proof.
  intros ND U A.
  apply update_order_status_returns in U.
  destruct U as (o & Ao & Hid & Hst & Ed & ->).
  set (s' := fire (written_satellite role oid status now) s) in *.
  assert (orders s' = assign_status oid (target_status status) (orders s))
    as O by (unfold s'; destruct status; reflexivity).
  assert (NoDup (map order_id (orders s'))) as ND'
    by (rewrite O, map_order_id_assign_status; exact ND).
  apply authorized_first_order in Ao. destruct Ao as [F _].
  apply authorized_iff in A. destruct A as [F' Own].
  assert (order_status o' = target_status status) as St.
  { unfold first_order in F, F'. rewrite O in F'.
    rewrite (find_assign_status _ _ _ _ F) in F'.
    inversion F'. reflexivity. }
  destruct (first_order_id _ _ _ F') as [Hin' Hid'].
  split.
  - intros l G.
    pose proof (listed_iff s' reader reader_role None
                  (Some (target_status status)) o') as L.
    rewrite G in L. apply L. repeat split; auto.
    simpl. apply status_eqb_eq. exact St.
  - intros st rf l Ne G x Hx Ex.
    pose proof (listed_iff s' reader reader_role rf (Some st) x) as L.
    rewrite G in L. apply L in Hx. destruct Hx as (Hx & _ & Sx & _).
    simpl in Sx. apply status_eqb_eq in Sx.
    assert (x = o') as ->
      by (apply (same_id_same_order (orders s')); auto; congruence).
    congruence.
Qed.

(** The sample order, being prepared, is in the merchant's PREPARING
    listing. *)
Lemma update_then_listed_witness :
  In (mkOrder 1 7 1 100 (Dec.mk 1025 (-2)) PREPARING)
     [mkOrder 1 7 1 100 (Dec.mk 1025 (-2)) PREPARING].
Proof.
  apply (proj1 (update_then_listed 10 MERCHANT 1 PreparingOrderUpdate 200
                  Sample.ordered Sample.preparing 10 MERCHANT
                  (mkOrder 1 7 1 100 (Dec.mk 1025 (-2)) PREPARING)
                  ltac:(repeat constructor; simpl; tauto)
                  eq_refl eq_refl)).
  reflexivity.
Defined.

(** ** From ORDERED to SETTLED *)

Lemma update_accepted_session user_id role oid status now s o :
  authorized s user_id role oid o ->
  permitted role (order_status o) status = true ->
  exists s',
    update_order_status user_id role oid status now s = (inr tt, s') /\
    first_order s' oid = Some (with_status o (target_status status)) /\
    restaurants s' = restaurants s.
Proof.
  intros A P.
  destruct (update_accepted user_id role oid status now s o A)
    as (s' & E & F).
  - unfold transition, commit_cancelled, commit_settled,
      commit_preparing, commit_ready.
    destruct role, (order_status o), status; try discriminate;
      eexists; (split; [reflexivity | reflexivity]).
  - exists s'. split; [exact E |]. split; [exact F |].
    apply update_order_status_returns in E.
    destruct E as (_ & _ & _ & _ & _ & ->). destruct status; reflexivity.
Qed.

Lemma authorized_after_update s s' user_id role oid o st :
  authorized s user_id role oid o ->
  first_order s' oid = Some (with_status o st) ->
  restaurants s' = restaurants s ->
  authorized s' user_id role oid (with_status o st).
Proof.
  intros A F Rs. apply authorized_iff in A. destruct A as [_ Own].
  apply authorized_iff. split; [exact F |].
  destruct role; [exact Own |].
  unfold joins_owned_restaurant in *. now rewrite Rs.
Qed.

(** X16. Every ORDERED order can be taken to SETTLED: when the merchant
    marks it as being prepared, then as ready, and the customer then
    settles it, each of the three calls returns, and the order is SETTLED
    at the end, with the price it had. *)
Theorem ordered_can_be_settled s customer merchant oid o t1 t2 t3 :
  authorized s customer CUSTOMER oid o ->
  authorized s merchant MERCHANT oid o ->
  order_status o = ORDERED ->
  exists s1 s2 s3,
    update_order_status merchant MERCHANT oid PreparingOrderUpdate t1 s
    = (inr tt, s1) /\
    update_order_status merchant MERCHANT oid ReadyOrderUpdate t2 s1
    = (inr tt, s2) /\
    update_order_status customer CUSTOMER oid SettledOrderUpdate t3 s2
    = (inr tt, s3) /\
    first_order s3 oid = Some (with_status o SETTLED).
Proof.
  intros Ac Am St.
  destruct (update_accepted_session merchant MERCHANT oid
              PreparingOrderUpdate t1 s o Am) as (s1 & U1 & F1 & R1);
    [now rewrite St |].
  pose proof (authorized_after_update s s1 merchant MERCHANT oid o PREPARING
                Am F1 R1) as Am1.
  pose proof (authorized_after_update s s1 customer CUSTOMER oid o PREPARING
                Ac F1 R1) as Ac1.
  destruct (update_accepted_session merchant MERCHANT oid ReadyOrderUpdate
              t2 s1 (with_status o PREPARING) Am1)
    as (s2 & U2 & F2 & R2); [reflexivity |].
  pose proof (authorized_after_update s1 s2 customer CUSTOMER oid
                (with_status o PREPARING) READY Ac1 F2 R2) as Ac2.
  destruct (update_accepted_session customer CUSTOMER oid SettledOrderUpdate
              t3 s2 (with_status (with_status o PREPARING) READY) Ac2)
    as (s3 & U3 & F3 & R3); [reflexivity |].
  exists s1, s2, s3. auto.
Qed.

Lemma ordered_can_be_settled_witness :
  exists s1 s2 s3,
    update_order_status 10 MERCHANT 1 PreparingOrderUpdate 200 Sample.ordered
    = (inr tt, s1) /\
    update_order_status 10 MERCHANT 1 ReadyOrderUpdate 300 s1
    = (inr tt, s2) /\
    update_order_status 7 CUSTOMER 1 SettledOrderUpdate 400 s2
    = (inr tt, s3) /\
    first_order s3 1
    = Some (mkOrder 1 7 1 100 (Dec.mk 1025 (-2)) SETTLED).
Proof.
  apply (ordered_can_be_settled Sample.ordered 7 10 1
           (mkOrder 1 7 1 100 (Dec.mk 1025 (-2)) ORDERED) 200 300 400);
    reflexivity.
Defined.

(** ** What [create_order] commits *)

Lemma add_order_options_tx_run item_id opts :
  forall t,
    add_order_options_tx item_id opts t
    = (inr tt,
       mkTransaction
         (snd (add_order_options item_id opts (view t)))
         (match opts with
          | [] => committed t
          | _ :: _ => snd (add_order_options item_id opts (view t))
          end)).
Proof.
  induction opts as [| oc opts IH]; intros [v c].
  - reflexivity.
  - cbn [add_order_options_tx add_order_options].
    unfold bind_tx, in_session, commit, bind, write. cbn [view committed].
    rewrite IH. cbn [view committed]. destruct opts; reflexivity.
Qed.

Lemma add_order_items_tx_run oid items :
  forall t,
    add_order_items_tx oid items t
    = (inr tt,
       mkTransaction
         (snd (add_order_items oid items (view t)))
         (match items with
          | [] => committed t
          | _ :: _ => snd (add_order_items oid items (view t))
          end)).
Proof.
  induction items as [| it items IH]; intros [v c].
  - reflexivity.
  - cbn [view committed].
    destruct (add_order_options_returns
                (fresh_id (map order_item_id (order_items v)))
                (create_options it)
                (snd (add_order_item oid it v))) as [v2 E].
    assert (match create_options it with
            | [] => snd (add_order_item oid it v)
            | _ :: _ => v2
            end = v2) as Same
      by (destruct (create_options it);
          [simpl in E; now inversion E | reflexivity]).
    assert (add_order_items oid (it :: items) v
            = add_order_items oid items v2) as ->.
    { cbn [add_order_items]. unfold bind at 1.
      unfold add_order_item at 1. unfold bind at 1.
      unfold add_order_item in E. cbn [snd] in E. now rewrite E. }
    cbn [add_order_items_tx]. unfold bind_tx at 1.
    unfold in_session at 1. cbn [view committed].
    unfold add_order_item at 1. unfold bind_tx at 1.
    unfold commit at 1. cbn [view committed].
    unfold bind_tx at 1. rewrite add_order_options_tx_run.
    cbn [view committed].
    unfold add_order_item in E, Same. cbn [snd] in E, Same.
    rewrite E. cbn [snd]. rewrite Same, IH. cbn [view committed].
    destruct items; reflexivity.
Qed.

(** X3. Of what [create_order] writes, the Order row is flushed and the
    item and option rows are committed one by one.  The session of the
    call sees what [create_order] does there.  A call that raises commits
    nothing and leaves the transaction as it was.  A call with no line
    items returns a new id but reaches no commit: the Order row, at
    [Decimal(0)], is in the session only, and what is committed is what
    was committed before.  A call with at least one line item that returns
    has committed everything the session sees. *)
Theorem create_order_commits customer_id now payload t r t' :
  create_order_tx customer_id now payload t = (r, t') ->
  create_order customer_id now payload (view t) = (r, view t') /\
  (forall e, r = inl e -> t' = t) /\
  (create_items payload = [] ->
     committed t' = committed t /\
     forall id, r = inr id ->
       exists o,
         orders (view t') = (orders (view t) ++ [o])%list /\
         order_id o = id /\ order_price_paid o = Dec.zero /\
         order_items (view t') = order_items (view t) /\
         order_options (view t') = order_options (view t)) /\
  (forall id, r = inr id -> create_items payload <> [] ->
     committed t' = view t').
Proof.
  destruct t as [v c]. unfold create_order_tx, create_order.
  unfold bind_tx at 1. unfold in_session at 1. cbn [view committed].
  unfold bind at 1.
  destruct (get_restaurant (create_restaurant_id payload) v)
    as [[e | restaurant] v1] eqn:G;
    pose proof (read_only_eq _ _ _ _ (read_only_get_restaurant _) G);
    subst v1.
  { intros H. inversion H; subst. cbn [view committed].
    repeat split; try discriminate; auto. }
  unfold bind_tx at 1. unfold in_session at 1. cbn [view committed].
  unfold bind at 1.
  destruct (check_items restaurant (create_items payload) Dec.zero v)
    as [[e | price] v1] eqn:C;
    pose proof (read_only_eq _ _ _ _ (read_only_check_items _ _ _) C);
    subst v1.
  { intros H. inversion H; subst. cbn [view committed].
    repeat split; try discriminate; auto. }
  unfold bind_tx at 1. unfold in_session at 1. cbn [view committed].
  unfold bind at 1. unfold add_order at 1 2.
  unfold bind_tx at 1. rewrite add_order_items_tx_run.
  cbn [view committed]. unfold bind at 1.
  rewrite add_order_items_run. unfold ret_tx, ret. cbn [snd].
  intros H. inversion H; subst; clear H. cbn [view committed].
  split; [reflexivity |]. split; [discriminate |]. split.
  - intros Items. rewrite Items in *. split; [reflexivity |].
    intros id Eid. inversion Eid; subst id.
    assert (check_items restaurant [] Dec.zero v = (inr Dec.zero, v)) as Z0
      by reflexivity.
    rewrite Z0 in C. inversion C; subst price.
    eexists. simpl. rewrite !app_nil_r. repeat split; reflexivity.
  - intros id _ Items. destruct (create_items payload); [contradiction |].
    reflexivity.
Qed.

(** An order without items: returned, seen in the session, committed
    nowhere. *)
Lemma create_order_commits_witness :
  exists id t',
    create_order_tx 7 100 (mkOrderCreate 1 [])
      (mkTransaction Sample.catalogue Sample.catalogue) = (inr id, t') /\
    map order_price_paid (orders (view t')) = [Dec.zero] /\
    committed t' = Sample.catalogue.
Proof.
  exists 1,
    (snd (create_order_tx 7 100 (mkOrderCreate 1 [])
            (mkTransaction Sample.catalogue Sample.catalogue))).
  split; [reflexivity |]. split; [reflexivity |].
  destruct (create_order_commits 7 100 (mkOrderCreate 1 [])
              (mkTransaction Sample.catalogue Sample.catalogue) (inr 1)
              (snd (create_order_tx 7 100 (mkOrderCreate 1 [])
                      (mkTransaction Sample.catalogue Sample.catalogue)))
              eq_refl) as (_ & _ & H & _).
  destruct (H eq_refl) as [Hc _]. exact Hc.
Defined.
